(** * Appointment scheduler: availability, validation and booking

    A shallow embedding of the logic of the appointment scheduler:
    - [src/src/Components/App.js]: the React component that builds the
      schedule from the fetched bookings ([handleFetch]), answers the day
      and slot queries ([checkDisableDate], [renderAppointmentTimes]),
      validates the contact fields ([validateEmail], [validatePhone]) and
      submits the booking ([handleSubmit]);
    - [src/app.js]: the Express handler of [POST /api/appointments], which
      strips the phone number, builds the SMS text, sends it and writes the
      booking to the store.

    Strings are Rocq strings of 8-bit code units; a JavaScript object used
    as a dictionary is a [gmap string _]; a JavaScript array is a list of
    optional elements, [None] being a hole. *)

From Stdlib Require Import ZArith Ascii String List Bool Lia.
From stdpp Require Import base option list strings gmap fin_maps.

Local Open Scope string_scope.

(** ** Regular expressions

    The two validators are [RegExp.prototype.test] on a pattern anchored
    with [^] and [$], without back-references or look-around: membership
    of the whole string in a regular language.  The matcher below decides
    it with derivatives. *)

Module Regex.

Inductive regex : Type :=
| Void
| Eps
| Class (p : ascii -> bool)
| Alt (r1 r2 : regex)
| Cat (r1 r2 : regex)
| Star (r : regex).

Definition Lit (c : ascii) : regex := Class (Ascii.eqb c).
Definition Opt (r : regex) : regex := Alt r Eps.
Definition Plus (r : regex) : regex := Cat r (Star r).

Fixpoint Rep (n : nat) (r : regex) : regex :=
  match n with
  | O => Eps
  | S n' => Cat r (Rep n' r)
  end.

(** [r{n,}] *)
Definition AtLeast (n : nat) (r : regex) : regex := Cat (Rep n r) (Star r).

Fixpoint nullable (r : regex) : bool :=
  match r with
  | Void => false
  | Eps => true
  | Class _ => false
  | Alt r1 r2 => nullable r1 || nullable r2
  | Cat r1 r2 => nullable r1 && nullable r2
  | Star _ => true
  end.

Fixpoint deriv (c : ascii) (r : regex) : regex :=
  match r with
  | Void => Void
  | Eps => Void
  | Class p => if p c then Eps else Void
  | Alt r1 r2 => Alt (deriv c r1) (deriv c r2)
  | Cat r1 r2 =>
      if nullable r1 then Alt (Cat (deriv c r1) r2) (deriv c r2)
      else Cat (deriv c r1) r2
  | Star r1 => Cat (deriv c r1) (Star r1)
  end.

(** [/^r$/.test(s)] *)
Fixpoint test (r : regex) (s : string) : bool :=
  match s with
  | EmptyString => nullable r
  | String c s' => test (deriv c r) s'
  end.

(** The language of a regular expression. *)
Inductive Matches : regex -> string -> Prop :=
| MEps : Matches Eps ""
| MClass p c : p c = true -> Matches (Class p) (String c "")
| MAltL r1 r2 s : Matches r1 s -> Matches (Alt r1 r2) s
| MAltR r1 r2 s : Matches r2 s -> Matches (Alt r1 r2) s
| MCat r1 r2 s1 s2 :
    Matches r1 s1 -> Matches r2 s2 -> Matches (Cat r1 r2) (s1 +:+ s2)
| MStar0 r : Matches (Star r) ""
| MStarS r s1 s2 :
    Matches r s1 -> Matches (Star r) s2 -> Matches (Star r) (s1 +:+ s2).

(** Every leaf class of [r] gives the same answer on [c] and [f c]. *)
Fixpoint class_invariant (f : ascii -> ascii) (r : regex) : Prop :=
  match r with
  | Void | Eps => True
  | Class p => forall c, p (f c) = p c
  | Alt r1 r2 | Cat r1 r2 => class_invariant f r1 /\ class_invariant f r2
  | Star r1 => class_invariant f r1
  end.

Fixpoint map_string (f : ascii -> ascii) (s : string) : string :=
  match s with
  | EmptyString => EmptyString
  | String c s' => String (f c) (map_string f s')
  end.

End Regex.

Import Regex.

(** ** Character classes of the two patterns *)

Definition code (c : ascii) : N := N_of_ascii c.

(** [\d] *)
Definition is_digit (c : ascii) : bool :=
  (48 <=? code c)%N && (code c <=? 57)%N.

(** [\s], on code units below 256: tab, line feed, vertical tab, form
    feed, carriage return, space and no-break space. *)
Definition is_space (c : ascii) : bool :=
  ((9 <=? code c)%N && (code c <=? 13)%N)
  || (code c =? 32)%N || (code c =? 160)%N.

(** [.] without the [s] flag: anything but a line terminator. *)
Definition is_dot (c : ascii) : bool :=
  negb ((code c =? 10)%N || (code c =? 13)%N).

Fixpoint mem_ascii (c : ascii) (s : string) : bool :=
  match s with
  | EmptyString => false
  | String d s' => Ascii.eqb c d || mem_ascii c s'
  end.

(** The double quote, code 34. *)
Definition dquote : ascii := ascii_of_N 34.

(** The negated class that both halves of the email pattern use: none of
    the punctuation characters below, no double quote, no white space. *)
Definition is_atom (c : ascii) : bool :=
  negb (mem_ascii c "<>()[].,;:@" || Ascii.eqb c dquote || is_space c).

(** ** The two patterns of [App.js]

    [validateEmail] tests, with the flag [i], the anchored pattern
    [local @ domain], where [A] is the negated class [is_atom] and [Q]
    the double quote:
    - [local] is [A+] followed by any number of [\.A+], or [Q.+Q];
    - [domain] is one or more [A+\.] followed by [A{2,}].
    The pattern names no letter, so the flag changes nothing. *)
Definition email_local : regex :=
  Alt (Cat (Plus (Class is_atom))
           (Star (Cat (Lit ".") (Plus (Class is_atom)))))
      (Cat (Lit dquote) (Cat (Plus (Class is_dot)) (Lit dquote))).

(** One label of the domain with its dot. *)
Definition label_dot : regex := Cat (Plus (Class is_atom)) (Lit ".").

Definition email_domain : regex :=
  Cat (Plus label_dot) (AtLeast 2 (Class is_atom)).

Definition email_regex : regex :=
  Cat email_local (Cat (Lit "@") email_domain).

(** [validatePhone]:
    [^(1\s|1|)?((\(\d{3}\))|\d{3})(\-|\s)?(\d{3})(\-|\s)?(\d{4})$] *)
Definition phone_prefix : regex :=
  Opt (Alt (Cat (Lit "1") (Class is_space)) (Alt (Lit "1") Eps)).

Definition phone_area : regex :=
  Alt (Cat (Lit "(") (Cat (Rep 3 (Class is_digit)) (Lit ")")))
      (Rep 3 (Class is_digit)).

Definition phone_sep : regex := Opt (Alt (Lit "-") (Class is_space)).

Definition phone_regex : regex :=
  Cat phone_prefix
    (Cat phone_area
       (Cat phone_sep
          (Cat (Rep 3 (Class is_digit))
             (Cat phone_sep (Rep 4 (Class is_digit)))))).

Definition email_regex_test (s : string) : bool := test email_regex s.
Definition phone_regex_test (s : string) : bool := test phone_regex s.

(** [s.replace(/\D/g, '')] of [app.js], line 38. *)
Fixpoint strip_non_digits (s : string) : string :=
  match s with
  | EmptyString => EmptyString
  | String c s' =>
      if is_digit c then String c (strip_non_digits s')
      else strip_non_digits s'
  end.

Fixpoint all_chars (p : ascii -> bool) (s : string) : bool :=
  match s with
  | EmptyString => true
  | String c s' => p c && all_chars p s'
  end.

(** ASCII case mappings, for the flag [i]. *)
Definition to_upper (c : ascii) : ascii :=
  if (97 <=? code c)%N && (code c <=? 122)%N
  then ascii_of_N (code c - 32) else c.

Definition to_lower (c : ascii) : ascii :=
  if (65 <=? code c)%N && (code c <=? 90)%N
  then ascii_of_N (code c + 32) else c.

(** ** Calendar days and the [moment] calls of the source

    A calendar day in the proleptic Gregorian calendar.  The source only
    reaches dates through [moment]: it formats them with the tokens
    [YYYY], [DD], [MM], [dddd], [MMMM], [Do], [h], [mm] and [a], parses
    the wire format [YYYY-DD-MM], sets the hour, adds hours, and compares
    two days.  These are modelled below, in the [en] locale. *)

Record civil : Type := Civil { year : Z; month : Z; day : Z }.

Local Open Scope Z_scope.

Definition is_leap (y : Z) : bool :=
  ((y mod 4 =? 0) && negb (y mod 100 =? 0)) || (y mod 400 =? 0).

Definition days_in_month (y m : Z) : Z :=
  if m =? 2 then (if is_leap y then 29 else 28)
  else if (m =? 4) || (m =? 6) || (m =? 9) || (m =? 11) then 30
  else 31.

Definition valid_civil (c : civil) : bool :=
  (1 <=? month c) && (month c <=? 12)
  && (1 <=? day c) && (day c <=? days_in_month (year c) (month c)).

(** Days since 1970-01-01. *)
Definition days_from_civil (c : civil) : Z :=
  let y := if month c <=? 2 then year c - 1 else year c in
  let era := y / 400 in
  let yoe := y - era * 400 in
  let mp := (month c + 9) mod 12 in
  let doy := (153 * mp + 2) / 5 + day c - 1 in
  let doe := yoe * 365 + yoe / 4 - yoe / 100 + doy in
  era * 146097 + doe - 719468.

Definition civil_from_days (z : Z) : civil :=
  let z := z + 719468 in
  let era := z / 146097 in
  let doe := z - era * 146097 in
  let yoe := (doe - doe / 1460 + doe / 36524 - doe / 146096) / 365 in
  let doy := doe - (365 * yoe + yoe / 4 - yoe / 100) in
  let mp := (5 * doy + 2) / 153 in
  let d := doy - (153 * mp + 2) / 5 + 1 in
  let m := if mp <? 10 then mp + 3 else mp - 9 in
  let y := yoe + era * 400 in
  Civil (if m <=? 2 then y + 1 else y) m d.

(** Day of the week, 0 for Sunday: 1970-01-01 was a Thursday. *)
Definition weekday (c : civil) : Z := (days_from_civil c + 4) mod 7.

(** A [moment] object: a day, an hour and a minute (the source never
    touches seconds).  The object is mutable; the functions below return
    the mutated object. *)
Record moment : Type := Moment { m_day : civil; m_hour : Z; m_minute : Z }.

Definition startOf_day (m : moment) : moment := Moment (m_day m) 0 0.
Definition set_hour (h : Z) (m : moment) : moment :=
  Moment (m_day m) h (m_minute m).
Definition set_minute (n : Z) (m : moment) : moment :=
  Moment (m_day m) (m_hour m) n.

(** [m.add(n, 'hours')], carrying into the day.  The hours are added
    on the wall clock: this is what the call gives when the clock of
    the zone does not change between the moment and the result. *)
Definition add_hours (n : Z) (m : moment) : moment :=
  let h := m_hour m + n in
  Moment (civil_from_days (days_from_civil (m_day m) + h / 24))
         (h mod 24) (m_minute m).

(** [a.startOf('day').diff(b.startOf('day'))], in milliseconds; a
    daylight saving shift in between moves it by an hour and keeps its
    sign. *)
Definition diff_days_ms (a b : civil) : Z :=
  (days_from_civil a - days_from_civil b) * 86400000.

Definition digit_char (n : Z) : ascii := ascii_of_N (48 + Z.to_N (n mod 10)).

Fixpoint decimal_go (fuel : nat) (n : Z) (acc : string) : string :=
  match fuel with
  | O => acc
  | S fuel' =>
      let acc' := String (digit_char n) acc in
      if n / 10 =? 0 then acc' else decimal_go fuel' (n / 10) acc'
  end.

(** Decimal digits of a natural number. *)
Definition decimal (n : Z) : string :=
  decimal_go (S (Z.to_nat (Z.log2 n))) n "".

Fixpoint zeros (n : nat) : string :=
  match n with
  | O => ""
  | S n' => String "0" (zeros n')
  end.

(** [zeroFill(n, width)] of moment: the sign, then the digits of [|n|]
    padded with zeros on the left. *)
Definition zeroFill (n : Z) (width : nat) : string :=
  let d := decimal (Z.abs n) in
  (if n <? 0 then "-" else "")
    +:+ zeros (width - String.length d) +:+ d.

(** Token [YYYY]: the year filled to four digits, without a sign for a
    year above 9999. *)
Definition fmt_YYYY (y : Z) : string := zeroFill y 4.

Definition month_name (m : Z) : string :=
  match m with
  | 1 => "January" | 2 => "February" | 3 => "March" | 4 => "April"
  | 5 => "May" | 6 => "June" | 7 => "July" | 8 => "August"
  | 9 => "September" | 10 => "October" | 11 => "November"
  | _ => "December"
  end.

Definition weekday_name (w : Z) : string :=
  match w with
  | 0 => "Sunday" | 1 => "Monday" | 2 => "Tuesday" | 3 => "Wednesday"
  | 4 => "Thursday" | 5 => "Friday" | _ => "Saturday"
  end.

(** Token [Do]: the English ordinal of the day of the month. *)
Definition ordinal (n : Z) : string :=
  decimal n +:+
  (if (n mod 100) / 10 =? 1 then "th"
   else match n mod 10 with
        | 1 => "st" | 2 => "nd" | 3 => "rd" | _ => "th"
        end).

(** [format('YYYY-DD-MM')]: the key of a day in the schedule and the
    date on the wire.  The day comes before the month. *)
Definition format_key (c : civil) : string :=
  fmt_YYYY (year c) +:+ "-" +:+ zeroFill (day c) 2
    +:+ "-" +:+ zeroFill (month c) 2.

(** [format('h:mm a')] *)
Definition format_time (m : moment) : string :=
  decimal (if m_hour m mod 12 =? 0 then 12 else m_hour m mod 12)
    +:+ ":" +:+ zeroFill (m_minute m) 2
    +:+ " " +:+ (if m_hour m <? 12 then "am" else "pm").

(** [format('a')] *)
Definition format_a (m : moment) : string :=
  if m_hour m <? 12 then "am" else "pm".

(** [format('dddd MMMM Do[,] YYYY')] *)
Definition format_long (c : civil) : string :=
  weekday_name (weekday c) +:+ " " +:+ month_name (month c) +:+ " "
    +:+ ordinal (day c) +:+ ", " +:+ fmt_YYYY (year c).

(** *** Parsing the wire format

    [moment(s, 'YYYY-DD-MM')] in moment's forgiving mode: each token of
    the format, in turn, is searched for in what is left of the input and
    the input is cut after the match.  [YYYY] is the first run of at most
    four digits, [DD] and [MM] runs of at most two, and [-] the next
    hyphen wherever it is.  A missing day or month defaults to 1; an
    input without digits, a month outside 1..12 or a day outside the
    month makes the moment invalid. *)

Fixpoint take_digits (n : nat) (s : string) : string * string :=
  match n, s with
  | S n', String c s' =>
      if is_digit c
      then let '(ds, r) := take_digits n' s' in (String c ds, r)
      else ("", s)
  | _, _ => ("", s)
  end.

Fixpoint find_digits (n : nat) (s : string) : option (string * string) :=
  match s with
  | EmptyString => None
  | String c s' =>
      if is_digit c then Some (take_digits n s) else find_digits n s'
  end.

Fixpoint find_after (c : ascii) (s : string) : option string :=
  match s with
  | EmptyString => None
  | String d s' => if Ascii.eqb c d then Some s' else find_after c s'
  end.

Definition skip_hyphen (s : string) : string :=
  match find_after "-" s with
  | Some r => r
  | None => s
  end.

Fixpoint toInt_go (s : string) (acc : Z) : Z :=
  match s with
  | EmptyString => acc
  | String c s' => toInt_go s' (10 * acc + (Z.of_N (code c) - 48))
  end.

Definition toInt (s : string) : Z := toInt_go s 0.

(** A two-digit year is read as 19xx above 68 and 20xx otherwise. *)
Definition parse_year (ys : string) : Z :=
  if Nat.eqb (String.length ys) 2
  then toInt ys + (if 68 <? toInt ys then 1900 else 2000)
  else toInt ys.

Definition parse_key (s : string) : option civil :=
  match find_digits 4 s with
  | None => None
  | Some (ys, r1) =>
      let r2 := skip_hyphen r1 in
      let '(d, r3) :=
        match find_digits 2 r2 with
        | Some (ds, r) => (toInt ds, r)
        | None => (1, r2)
        end in
      let r4 := skip_hyphen r3 in
      let m :=
        match find_digits 2 r4 with
        | Some (ms, _) => toInt ms
        | None => 1
        end in
      let c := Civil (parse_year ys) m d in
      if valid_civil c then Some c else None
  end.

(** Formatting an invalid moment gives the text [Invalid date]. *)
Definition format_key_opt (o : option civil) : string :=
  match o with
  | Some c => format_key c
  | None => "Invalid date"
  end.

(** [moment(date, 'YYYY-DD-MM').format('YYYY-DD-MM')] of [handleFetch]. *)
Definition canon (date : string) : string := format_key_opt (parse_key date).

Local Close Scope Z_scope.

(** ** The schedule ([handleFetch])

    The schedule is a JavaScript object keyed by formatted day.  A value
    is either the boolean [true] or an array.  An array starts as
    [Array(8).fill(false)]; writing past its end extends it and leaves
    holes. *)

Abbreviation jsarray := (list (option bool)).

Inductive entry : Type :=
| Booked                  (* [true] *)
| Slots (a : jsarray).    (* an array *)

#[export] Instance entry_eq_dec : EqDecision entry.
Proof. solve_decision. Defined.

(** A record as [GET /api/appointments] returns it. *)
Record booking : Type := Booking { b_date : string; b_slot : nat }.

(** [a[i] = v] *)
Definition array_set (a : jsarray) (i : nat) (v : bool) : jsarray :=
  if decide (i < length a) then <[i := Some v]> a
  else (a ++ replicate (i - length a) None ++ [Some v])%list.

(** [a[i]] as a condition: a hole or an index past the end reads
    [undefined], which is falsy. *)
Definition array_get (a : jsarray) (i : nat) : bool :=
  match a !! i with
  | Some (Some b) => b
  | _ => false
  end.

(** [a.every(slot => slot === true)]; [every] skips holes. *)
Definition every_true (a : jsarray) : bool :=
  forallb (fun o => match o with Some b => b | None => true end) a.

Definition fresh_slots : jsarray := replicate 8 (Some false).

(** The reducer of [handleFetch], lines 95 to 102.  The presence test
    reads the key [date] as fetched; the writes use the re-formatted
    [dateString].  The schedule is read by its own keys: a [date] that
    spells a name which every object inherits ([constructor],
    [toString] and the like) is outside this model; no canonical date
    is such a name. *)
Definition add_booking (currentSchedule : gmap string entry) (appointment : booking)
  : gmap string entry :=
  let date := b_date appointment in
  let slot := b_slot appointment in
  let dateString := canon date in
  let s1 :=
    match currentSchedule !! date with
    | None => <[dateString := Slots fresh_slots]> currentSchedule
    | Some _ => currentSchedule
    end in
  match s1 !! dateString with
  | Some (Slots a) => <[dateString := Slots (array_set a slot true)]> s1
  | _ => s1
  end.

(** The loop of lines 105 to 108: [true.length] is [undefined], an array
    of positive length whose elements are all [true] becomes [true]. *)
Definition collapse (e : entry) : entry :=
  match e with
  | Booked => Booked
  | Slots a =>
      if negb (Nat.eqb (length a) 0) && every_true a then Booked else Slots a
  end.

Definition initSchedule (today : civil) : gmap string entry :=
  {[ format_key today := Booked ]}.

(** The schedule before the collapse loop. *)
Definition fold_bookings (today : civil) (appointments : list booking)
  : gmap string entry :=
  match appointments with
  | [] => initSchedule today
  | _ => foldl add_booking (initSchedule today) appointments
  end.

(** The schedule that [handleFetch] stores in the state. *)
Definition build (today : civil) (appointments : list booking)
  : gmap string entry :=
  collapse <$> fold_bookings today appointments.

(** ** The two queries of the calendar and of the slot list *)

(** [checkDisableDate(day)], line 151: the day picker disables [day] when
    this holds.  [now] is the day of the call. *)
Definition checkDisableDate
    (schedule : gmap string entry) (now day : civil) : bool :=
  let dateString := format_key day in
  bool_decide (schedule !! dateString = Some Booked)
  || (diff_days_ms day now <? 0)%Z.

Definition isDaySelectable
    (schedule : gmap string entry) (now day : civil) : bool :=
  negb (checkDisableDate schedule now day).

(** Line 178: [schedule[d] ? schedule[d][slot] : false].  Indexing the
    boolean [true] reads [undefined]. *)
Definition scheduleDisabled
    (schedule : gmap string entry) (appointmentDateString : string)
    (slot : nat) : bool :=
  match schedule !! appointmentDateString with
  | Some (Slots a) => array_get a slot
  | Some Booked => false
  | None => false
  end.

(** The start of a slot: [moment().hour(9).minute(0).add(slot, 'hours')]. *)
Definition slot_time (now : moment) (slot : nat) : moment :=
  add_hours (Z.of_nat slot) (set_minute 0 (set_hour 9 now)).

(** Line 179; [appointmentMeridiem] is 0 for AM and 1 for PM. *)
Definition meridiemDisabled
    (now : moment) (appointmentMeridiem : nat) (slot : nat) : bool :=
  let t1 := slot_time now slot in
  if negb (Nat.eqb appointmentMeridiem 0)
  then String.eqb (format_a t1) "am"
  else String.eqb (format_a t1) "pm".

(** One radio button of the slot list. *)
Record radio : Type := Radio {
  r_label : string;
  r_value : nat;
  r_hidden : bool;
  r_disabled : bool
}.

Definition slot_radio
    (schedule : gmap string entry) (now : moment)
    (appointmentDate : option civil) (appointmentMeridiem : nat)
    (slot : nat) : radio :=
  let appointmentDateString :=
    format_key (default (m_day now) appointmentDate) in
  let t1 := slot_time now slot in
  let t2 := slot_time now (slot + 1) in
  let sd := scheduleDisabled schedule appointmentDateString slot in
  let md := meridiemDisabled now appointmentMeridiem slot in
  Radio (format_time t1 +:+ " - " +:+ format_time t2) slot md (sd || md).

(** A slot can be picked when its button is not disabled. *)
Definition isSlotSelectable
    (schedule : gmap string entry) (now : moment)
    (appointmentDate : option civil) (appointmentMeridiem : nat)
    (slot : nat) : bool :=
  negb (r_disabled
          (slot_radio schedule now appointmentDate appointmentMeridiem slot)).

(** ** The state of the component and its handlers

    The fields of [this.state] that the logic reads or writes; [None] is
    a field that was never set.  Left out: the drawer, the screen width
    and the four configuration texts, which no handler below reads. *)
Record state : Type := State {
  loading : bool;
  confirmationModalOpen : bool;
  confirmationTextVisible : bool;
  stepIndex : nat;
  appointmentMeridiem : nat;
  validEmail : bool;
  validPhone : bool;
  confirmationSnackbarOpen : bool;
  confirmationSnackbarMessage : option string;
  appointmentDate : option civil;
  appointmentSlot : option nat;
  firstName : option string;
  lastName : option string;
  email : option string;
  phone : option string;
  schedule : option (gmap string entry);
  processed : bool
}.

(** The constructor, lines 38 to 50. *)
Definition initial_state : state :=
  {| loading := true; confirmationModalOpen := false;
     confirmationTextVisible := false; stepIndex := 0;
     appointmentMeridiem := 0; validEmail := true; validPhone := true;
     confirmationSnackbarOpen := false; confirmationSnackbarMessage := None;
     appointmentDate := None; appointmentSlot := None;
     firstName := None; lastName := None; email := None; phone := None;
     schedule := None; processed := false |}.

Definition set_stepIndex (n : nat) (s : state) : state :=
  State (loading s) (confirmationModalOpen s) (confirmationTextVisible s) n
    (appointmentMeridiem s) (validEmail s) (validPhone s)
    (confirmationSnackbarOpen s) (confirmationSnackbarMessage s)
    (appointmentDate s) (appointmentSlot s) (firstName s) (lastName s)
    (email s) (phone s) (schedule s) (processed s).

Definition set_appointmentDate (d : civil) (s : state) : state :=
  State (loading s) (confirmationModalOpen s) true (stepIndex s)
    (appointmentMeridiem s) (validEmail s) (validPhone s)
    (confirmationSnackbarOpen s) (confirmationSnackbarMessage s)
    (Some d) (appointmentSlot s) (firstName s) (lastName s)
    (email s) (phone s) (schedule s) (processed s).

Definition set_appointmentSlot (n : nat) (s : state) : state :=
  State (loading s) (confirmationModalOpen s) (confirmationTextVisible s)
    (stepIndex s) (appointmentMeridiem s) (validEmail s) (validPhone s)
    (confirmationSnackbarOpen s) (confirmationSnackbarMessage s)
    (appointmentDate s) (Some n) (firstName s) (lastName s)
    (email s) (phone s) (schedule s) (processed s).

Definition set_appointmentMeridiem (m : nat) (s : state) : state :=
  State (loading s) (confirmationModalOpen s) (confirmationTextVisible s)
    (stepIndex s) m (validEmail s) (validPhone s)
    (confirmationSnackbarOpen s) (confirmationSnackbarMessage s)
    (appointmentDate s) (appointmentSlot s) (firstName s) (lastName s)
    (email s) (phone s) (schedule s) (processed s).

Definition set_schedule (sch : gmap string entry) (s : state) : state :=
  State false (confirmationModalOpen s) (confirmationTextVisible s)
    (stepIndex s) (appointmentMeridiem s) (validEmail s) (validPhone s)
    (confirmationSnackbarOpen s) (confirmationSnackbarMessage s)
    (appointmentDate s) (appointmentSlot s) (firstName s) (lastName s)
    (email s) (phone s) (Some sch) (processed s).

Definition set_snackbar (msg : string) (done : bool) (s : state) : state :=
  State (loading s) (confirmationModalOpen s) (confirmationTextVisible s)
    (stepIndex s) (appointmentMeridiem s) (validEmail s) (validPhone s)
    true (Some msg)
    (appointmentDate s) (appointmentSlot s) (firstName s) (lastName s)
    (email s) (phone s) (schedule s) (done || processed s).

Definition set_snackbarOpen (b : bool) (s : state) : state :=
  State (loading s) (confirmationModalOpen s) (confirmationTextVisible s)
    (stepIndex s) (appointmentMeridiem s) (validEmail s) (validPhone s)
    b (confirmationSnackbarMessage s)
    (appointmentDate s) (appointmentSlot s) (firstName s) (lastName s)
    (email s) (phone s) (schedule s) (processed s).

Definition set_modal (b : bool) (s : state) : state :=
  State (loading s) b (confirmationTextVisible s)
    (stepIndex s) (appointmentMeridiem s) (validEmail s) (validPhone s)
    (confirmationSnackbarOpen s) (confirmationSnackbarMessage s)
    (appointmentDate s) (appointmentSlot s) (firstName s) (lastName s)
    (email s) (phone s) (schedule s) (processed s).

Definition set_firstName (v : string) (s : state) : state :=
  State (loading s) (confirmationModalOpen s) (confirmationTextVisible s)
    (stepIndex s) (appointmentMeridiem s) (validEmail s) (validPhone s)
    (confirmationSnackbarOpen s) (confirmationSnackbarMessage s)
    (appointmentDate s) (appointmentSlot s) (Some v) (lastName s)
    (email s) (phone s) (schedule s) (processed s).

Definition set_lastName (v : string) (s : state) : state :=
  State (loading s) (confirmationModalOpen s) (confirmationTextVisible s)
    (stepIndex s) (appointmentMeridiem s) (validEmail s) (validPhone s)
    (confirmationSnackbarOpen s) (confirmationSnackbarMessage s)
    (appointmentDate s) (appointmentSlot s) (firstName s) (Some v)
    (email s) (phone s) (schedule s) (processed s).

(** [setState({ email: email, validEmail: true })] *)
Definition set_email (v : string) (s : state) : state :=
  State (loading s) (confirmationModalOpen s) (confirmationTextVisible s)
    (stepIndex s) (appointmentMeridiem s) true (validPhone s)
    (confirmationSnackbarOpen s) (confirmationSnackbarMessage s)
    (appointmentDate s) (appointmentSlot s) (firstName s) (lastName s)
    (Some v) (phone s) (schedule s) (processed s).

(** [setState({ validEmail: false })] *)
Definition clear_validEmail (s : state) : state :=
  State (loading s) (confirmationModalOpen s) (confirmationTextVisible s)
    (stepIndex s) (appointmentMeridiem s) false (validPhone s)
    (confirmationSnackbarOpen s) (confirmationSnackbarMessage s)
    (appointmentDate s) (appointmentSlot s) (firstName s) (lastName s)
    (email s) (phone s) (schedule s) (processed s).

(** [setState({ phone: phoneNumber, validPhone: true })] *)
Definition set_phone (v : string) (s : state) : state :=
  State (loading s) (confirmationModalOpen s) (confirmationTextVisible s)
    (stepIndex s) (appointmentMeridiem s) (validEmail s) true
    (confirmationSnackbarOpen s) (confirmationSnackbarMessage s)
    (appointmentDate s) (appointmentSlot s) (firstName s) (lastName s)
    (email s) (Some v) (schedule s) (processed s).

(** [setState({ validPhone: false })] *)
Definition clear_validPhone (s : state) : state :=
  State (loading s) (confirmationModalOpen s) (confirmationTextVisible s)
    (stepIndex s) (appointmentMeridiem s) (validEmail s) false
    (confirmationSnackbarOpen s) (confirmationSnackbarMessage s)
    (appointmentDate s) (appointmentSlot s) (firstName s) (lastName s)
    (email s) (phone s) (schedule s) (processed s).

Definition handleNextStep (s : state) : state :=
  if decide (stepIndex s < 3) then set_stepIndex (stepIndex s + 1) s else s.

Definition handleSetAppointmentDate (date : civil) (s : state) : state :=
  set_appointmentDate date (handleNextStep s).

Definition handleSetAppointmentSlot (slot : nat) (s : state) : state :=
  set_appointmentSlot slot (handleNextStep s).

Definition handleSetAppointmentMeridiem (meridiem : nat) (s : state) : state :=
  set_appointmentMeridiem meridiem s.

Definition handleFetch
    (today : civil) (appointments : list booking) (s : state) : state :=
  set_schedule (build today appointments) s.

Definition handleFetchError (s : state) : state :=
  set_snackbar "Error fetching data" false s.

Definition validateEmail (email : string) (s : state) : state :=
  if email_regex_test email then set_email email s else clear_validEmail s.

Definition validatePhone (phoneNumber : string) (s : state) : state :=
  if phone_regex_test phoneNumber then set_phone phoneNumber s
  else clear_validPhone s.

(** The condition that enables the button opening the confirmation
    dialog, line 230; an empty string is falsy. *)
Definition truthy (o : option string) : bool :=
  match o with
  | Some s => negb (String.eqb s "")
  | None => false
  end.

Definition contactFormFilled (s : state) : bool :=
  truthy (firstName s) && truthy (lastName s) && truthy (phone s)
  && truthy (email s) && validPhone s && validEmail s.

(** Everything that happens to the component. *)
Inductive event : Type :=
| EvFetch (today : civil) (appointments : list booking)
| EvFetchError
| EvStepClick (i : nat)
| EvPickDate (date : civil)
| EvPickMeridiem (meridiem : nat)
| EvPickSlot (slot : nat)
| EvFirstName (v : string)
| EvLastName (v : string)
| EvEmail (v : string)
| EvPhone (v : string)
| EvToggleDialog
| EvCancelDialog
| EvSubmitResolved
| EvSubmitRejected
| EvSnackbarClose.

Definition step (s : state) (e : event) : state :=
  match e with
  | EvFetch today appointments => handleFetch today appointments s
  | EvFetchError => handleFetchError s
  | EvStepClick i => set_stepIndex i s
  | EvPickDate date => handleSetAppointmentDate date s
  | EvPickMeridiem m => handleSetAppointmentMeridiem m s
  | EvPickSlot slot => handleSetAppointmentSlot slot s
  | EvFirstName v => set_firstName v s
  | EvLastName v => set_lastName v s
  | EvEmail v => validateEmail v s
  | EvPhone v => validatePhone v s
  | EvToggleDialog => set_modal (negb (confirmationModalOpen s)) s
  | EvCancelDialog => set_modal false s
  | EvSubmitResolved => set_snackbar "Appointment succesfully added!" true s
  | EvSubmitRejected => set_snackbar "Appointment failed to save." false s
  | EvSnackbarClose => set_snackbarOpen false s
  end.

Definition run (events : list event) : state := foldl step initial_state events.

(** The most recent input of a field that its pattern accepted. *)
Definition last_accepted_email (events : list event) : option string :=
  foldl (fun acc e =>
           match e with
           | EvEmail v => if email_regex_test v then Some v else acc
           | _ => acc
           end) None events.

Definition last_accepted_phone (events : list event) : option string :=
  foldl (fun acc e =>
           match e with
           | EvPhone v => if phone_regex_test v then Some v else acc
           | _ => acc
           end) None events.

(** The body of the request of [handleSubmit], lines 126 to 132.  A field
    that was never set is [undefined]: it prints as that word in a
    concatenation, and [moment(undefined)] is the current day. *)
Record appointment : Type := Appointment {
  ap_date : string;
  ap_slot : option nat;
  ap_name : string;
  ap_email : option string;
  ap_phone : option string
}.

Definition js_to_string (o : option string) : string := default "undefined" o.

Definition handleSubmit (now : civil) (s : state) : appointment :=
  {| ap_date := format_key (default now (appointmentDate s));
     ap_slot := appointmentSlot s;
     ap_name := js_to_string (firstName s) +:+ " " +:+ js_to_string (lastName s);
     ap_email := email s;
     ap_phone := phone s |}.

(** ** The handler of [POST /api/appointments] ([app.js], lines 36 to 77) *)

Record config : Type := Config {
  twilio_number : string;
  bucket_slug : string;
  bucket_write_key : string
}.

Inductive jsval : Type :=
| JStr (s : string)
| JNum (n : nat)
| JUndefined.

Definition jsval_of_string (o : option string) : jsval :=
  match o with Some s => JStr s | None => JUndefined end.

Definition jsval_of_nat (o : option nat) : jsval :=
  match o with Some n => JNum n | None => JUndefined end.

Record metafield : Type := Metafield {
  mf_key : string;
  mf_type : string;
  mf_value : jsval
}.

Record cosmicObject : Type := CosmicObject {
  title : string;
  type_slug : string;
  write_key : string;
  metafields : list metafield
}.

Record sms : Type := Sms { sms_to : string; sms_from : string; sms_body : string }.

(** What the two services answer: Twilio calls back with an error or
    with the message; the promise of the store write resolves or rejects. *)
Record world : Type := World {
  twilio_create : sms -> option string;
  cosmic_add : string -> cosmicObject -> bool
}.

Inductive action : Type :=
| SendSms (m : sms)
| PostStore (url : string) (o : cosmicObject)
| ConsoleLog (err : option string)
| ResJson (data : string).

Inductive outcome : Type :=
| Threw
| Ran (trace : list action).

Definition format_time_opt (o : option moment) : string :=
  match o with Some m => format_time m | None => "Invalid date" end.

Definition format_long_opt (o : option moment) : string :=
  match o with Some m => format_long (m_day m) | None => "Invalid date" end.

(** Lines 39 and 40.  [hour] and [add] change the moment in place and
    return it, so [time] and [date] are one object: what is formatted
    and stored as the date is the moment after the hours were added.
    A missing slot adds nothing. *)
Definition appointment_moment (a : appointment) : option moment :=
  match parse_key (ap_date a) with
  | Some c =>
      Some (add_hours (Z.of_nat (default 0 (ap_slot a)))
              (set_hour 9 (startOf_day (Moment c 0 0))))
  | None => None
  end.

Definition smsBody (a : appointment) : string :=
  let time := appointment_moment a in
  let date := time in
  ap_name a +:+ ", this message is to confirm your appointment at "
    +:+ format_time_opt time +:+ " on " +:+ format_long_opt date +:+ ".".

Definition store_url (cfg : config) : string :=
  "https://api.cosmicjs.com/v1/" +:+ bucket_slug cfg +:+ "/add-object".

(** [phone] is the number already stripped of its non-digits. *)
Definition make_cosmicObject (cfg : config) (a : appointment) (phone : string)
  : cosmicObject :=
  let date := appointment_moment a in
  {| title := ap_name a;
     type_slug := "appointments";
     write_key := bucket_write_key cfg;
     metafields :=
       [ Metafield "date" "text"
           (JStr (format_key_opt (m_day <$> date)));
         Metafield "slot" "text" (jsval_of_nat (ap_slot a));
         Metafield "email" "text" (jsval_of_string (ap_email a));
         Metafield "phone" "text" (JStr phone) ] |}.

(** The handler.  Calling [replace] on a missing phone throws before
    anything is sent.  Otherwise the SMS is handed to Twilio, whose
    callback only logs; then the object is posted to the store, and the
    answer of the request is chosen by that promise alone. *)
Definition post_appointment (cfg : config) (w : world) (a : appointment)
  : outcome :=
  match ap_phone a with
  | None => Threw
  | Some raw =>
      let phone := strip_non_digits raw in
      let m := Sms ("+1" +:+ phone) (twilio_number cfg) (smsBody a) in
      let o := make_cosmicObject cfg a phone in
      Ran [ SendSms m;
            PostStore (store_url cfg) o;
            ConsoleLog (twilio_create w m);
            ResJson (if cosmic_add w (store_url cfg) o
                     then "succes" else "error ") ]
  end.

(** The store writes and the answers of a run, without the SMS side. *)
Definition store_side (o : outcome) : option (list action) :=
  match o with
  | Threw => None
  | Ran t =>
      Some (List.filter (fun x => match x with
                                  | PostStore _ _ | ResJson _ => true
                                  | _ => false
                                  end) t)
  end.

(** What the client shows: the promise of its request resolves whenever
    the server answers, whatever the answer says. *)
Definition client_event (o : outcome) : event :=
  match o with
  | Threw => EvSubmitRejected
  | Ran _ => EvSubmitResolved
  end.

(** [s.startsWith(p)] *)
Fixpoint starts_with (p s : string) : bool :=
  match p, s with
  | EmptyString, _ => true
  | String a p', String b s' => Ascii.eqb a b && starts_with p' s'
  | String _ _, EmptyString => false
  end.

(** [s.includes(sub)] *)
Fixpoint contains (sub s : string) : bool :=
  starts_with sub s
  || match s with
     | EmptyString => false
     | String _ s' => contains sub s'
     end.

(** ** Notions used in the statements *)

(** A day that the wire format can carry: a day of the calendar with a
    year of at most four digits. *)
Definition wire_day (c : civil) : bool :=
  valid_civil c && (0 <=? year c)%Z && (year c <=? 9999)%Z.

(** A record whose date is already in the form that [handleFetch]
    re-formats it to, as every date written by the handler of
    [POST /api/appointments] is. *)
Definition canonical (b : booking) : Prop := canon (b_date b) = b_date b.

#[export] Instance canonical_dec (b : booking) : Decision (canonical b).
Proof. unfold canonical. apply _. Defined.

(** Checks run over the whole range of a field: the printed form has the
    expected number of digits and reads back as the number. *)
Definition reads_back4 (y : Z) : bool :=
  match fmt_YYYY y with
  | String a (String b (String c (String d EmptyString))) =>
      is_digit a && is_digit b && is_digit c && is_digit d
      && (toInt (String a (String b (String c (String d EmptyString)))) =? y)%Z
  | _ => false
  end.

Definition reads_back2 (n : Z) : bool :=
  match zeroFill n 2 with
  | String a (String b EmptyString) =>
      is_digit a && is_digit b
      && (toInt (String a (String b EmptyString)) =? n)%Z
  | _ => false
  end.

Definition upto (n : Z) : list Z := map Z.of_nat (seq 0 (Z.to_nat n)).


(** A slot that the schedule holds as taken on a day: the day is fully
    booked, or its array has [true] at the slot. *)
Definition marked (sch : gmap string entry) (d : string) (slot : nat) : Prop :=
  sch !! d = Some Booked
  \/ exists a, sch !! d = Some (Slots a) /\ array_get a slot = true.

(** The shape of every array that [handleFetch] builds: the eight slots
    of the day are filled, and whatever lies past them is a hole or
    [true]. *)
Definition array_ok (a : jsarray) : Prop :=
  8 <= length a
  /\ (forall i, i < 8 -> exists b, a !! i = Some (Some b))
  /\ (forall i, 8 <= i -> a !! i <> Some (Some false)).

Definition schedule_ok (sch : gmap string entry) : Prop :=
  forall k a, sch !! k = Some (Slots a) -> array_ok a.

(** What the reducer does to the entry of the day of a canonical record. *)
Definition mark (slot : nat) (o : option entry) : entry :=
  match o with
  | None => Slots (array_set fresh_slots slot true)
  | Some Booked => Booked
  | Some (Slots a) => Slots (array_set a slot true)
  end.

(** The meridiem of a slot against the filter, 0 for AM: a slot starts
    at 9 o'clock plus its index and is in the morning before 12. *)
Definition meridiem_matches (appointmentMeridiem slot : nat) : bool :=
  if Nat.eqb appointmentMeridiem 0 then Nat.ltb (9 + slot) 12
  else Nat.leb 12 (9 + slot).

(** The slot query as the specification words it: a slot is taken on a
    fully booked day, or where the array of the day holds [true]; it can
    be picked when its meridiem matches and it is not taken. *)
Definition spec_taken (sch : gmap string entry) (d : string) (slot : nat) : bool :=
  match sch !! d with
  | Some Booked => true
  | Some (Slots a) => array_get a slot
  | None => false
  end.

Definition spec_isSlotSelectable
    (sch : gmap string entry) (d : string) (appointmentMeridiem slot : nat)
  : bool :=
  meridiem_matches appointmentMeridiem slot && negb (spec_taken sch d slot).


(** The walk through the form of the end-to-end scenario: the store is
    empty and today is the 15th of June 2024; the visitor picks the 16th
    and the slot 2, types the contact details and opens the dialog. *)
Definition scenario_today : civil := Civil 2024 6 15.
Definition scenario_day : civil := Civil 2024 6 16.

Definition scenario (phoneInput : string) : list event :=
  [ EvFetch scenario_today [];
    EvPickDate scenario_day;
    EvPickSlot 2;
    EvFirstName "Jane";
    EvLastName "Doe";
    EvEmail "jane@doe.com";
    EvPhone phoneInput;
    EvToggleDialog ].



(** ** The rest of the component and of the server *)

(** What a render method gives: it throws, it returns [null], or it
    returns its elements. *)
Inductive rendered (A : Type) : Type :=
| Thrown
| Null
| Shown (x : A).

Arguments Thrown {A}.
Arguments Null {A}.
Arguments Shown {A} x.

(** [renderAppointmentTimes], lines 171 to 190, on the state: nothing
    while loading; otherwise one radio button per slot 0 to 7.  Reading
    a key of a schedule that was never set throws. *)
Definition renderAppointmentTimes (now : moment) (s : state)
  : rendered (list radio) :=
  if loading s then Null
  else
    match schedule s with
    | None => Thrown
    | Some sch =>
        Shown (map (slot_radio sch now (appointmentDate s)
                      (appointmentMeridiem s))
                 (seq 0 8))
    end.

(** [format('dddd[,] MMMM Do')] *)
Definition format_day (c : civil) : string :=
  weekday_name (weekday c) +:+ ", " +:+ month_name (month c) +:+ " "
    +:+ ordinal (day c).

(** [renderConfirmationString], lines 156 to 169: the sentence above
    the form, with a clause for the day and a clause for the time, each
    rendered only when its field is set ([Number.isInteger] for the
    slot). *)
Record sentence : Type := Sentence {
  on_clause : option string;
  at_clause : option string
}.

Definition renderConfirmationString (now : moment) (s : state)
  : option sentence :=
  if confirmationTextVisible s
  then Some (Sentence (format_day <$> appointmentDate s)
               ((fun slot => format_time (slot_time now slot))
                  <$> appointmentSlot s))
  else None.

(** The button that opens the confirmation dialog is disabled by
    [!contactFormFilled || data.processed], line 365. *)
Definition scheduleButtonDisabled (s : state) : bool :=
  negb (contactFormFilled s) || processed s.

(** The last text typed in a field, accepted or not. *)
Definition last_email_input (events : list event) : option string :=
  foldl (fun acc e => match e with EvEmail v => Some v | _ => acc end)
    None events.

Definition last_phone_input (events : list event) : option string :=
  foldl (fun acc e => match e with EvPhone v => Some v | _ => acc end)
    None events.

(** The step buttons of the form set the index 0, 1 or 2 (lines 285,
    303 and 327). *)
Definition step_click_ok (e : event) : Prop :=
  match e with
  | EvStepClick i => i <= 2
  | _ => True
  end.

(** [GET /api/appointments] ([app.js], lines 88 to 98): each object of
    the store is cut down to its date and its slot.  The store is taken
    to return, as the metadata of an object, the values of the
    metafields that were posted. *)
Definition metadata (o : cosmicObject) (key : string) : jsval :=
  match List.find (fun f => String.eqb (mf_key f) key) (metafields o) with
  | Some f => mf_value f
  | None => JUndefined
  end.

Record fetched : Type := Fetched { f_date : jsval; f_slot : jsval }.

Definition get_appointments (all : list cosmicObject) : list fetched :=
  map (fun o => Fetched (metadata o "date") (metadata o "slot")) all.

(** A fetched record with a text for the date and a number for the
    slot is a record of the schedule builder. *)
Definition booking_of_fetched (f : fetched) : option booking :=
  match f_date f, f_slot f with
  | JStr d, JNum n => Some (Booking d n)
  | _, _ => None
  end.

Definition is_fetch (e : event) : bool :=
  match e with EvFetch _ _ => true | _ => false end.

(** The day and the slot picked last. *)
Definition last_picked_date (events : list event) : option civil :=
  foldl (fun acc e => match e with EvPickDate d => Some d | _ => acc end)
    None events.

Definition last_picked_slot (events : list event) : option nat :=
  foldl (fun acc e => match e with EvPickSlot n => Some n | _ => acc end)
    None events.

(** Whether the pattern accepts the last text typed, and so does not
    flag the field; nothing typed counts as accepted. *)
Definition accepted_or_none (test : string -> bool) (o : option string) : bool :=
  match o with
  | Some v => test v
  | None => true
  end.


(** The records that [handleFetch] of the form receives from
    [GET /api/appointments], when each has a text for its date and a
    number for its slot. *)
Definition fetched_bookings (all : list cosmicObject) : option (list booking) :=
  mapM booking_of_fetched (get_appointments all).


(** [renderAppointmentConfirmation], lines 192 to 200: what the dialog
    shows before the booking is sent.  A field that was never set
    renders as nothing; the day defaults to the current day and a
    missing slot adds no hour. *)
Record confirmation : Type := Confirmation {
  c_name : string;
  c_number : string;
  c_email : string;
  c_date : string;
  c_time : string
}.

Definition js_text (o : option string) : string := default "" o.

(** [format('dddd[,] MMMM Do[,] YYYY')] *)
Definition format_dialog (c : civil) : string :=
  weekday_name (weekday c) +:+ ", " +:+ month_name (month c) +:+ " "
    +:+ ordinal (day c) +:+ ", " +:+ fmt_YYYY (year c).

Definition renderAppointmentConfirmation (now : moment) (s : state)
  : confirmation :=
  {| c_name := js_text (firstName s) +:+ " " +:+ js_text (lastName s);
     c_number := js_text (phone s);
     c_email := js_text (email s);
     c_date := format_dialog (default (m_day now) (appointmentDate s));
     c_time := format_time (slot_time now (default 0 (appointmentSlot s))) |}.


(** The snackbar of the form, lines 379 to 383: whether it is open, and
    its message. *)
Definition renderSnackbar (s : state) : bool * string :=
  (confirmationSnackbarOpen s || loading s,
   if loading s then "Loading... "
   else default "" (confirmationSnackbarMessage s)).

(** * Properties *)

(** ** The matcher decides the language *)

Module RegexFacts.

Lemma append_nil_l (s : string) : "" +:+ s = s.
Proof. reflexivity. Qed.

Lemma append_cons (c : ascii) (s t : string) :
  String c s +:+ t = String c (s +:+ t).
Proof. reflexivity. Qed.

Lemma append_empty_r (s : string) : s +:+ "" = s.
Proof.
  induction s as [|c s IH]; [reflexivity |].
  rewrite append_cons. f_equal. exact IH.
Qed.

Lemma append_assoc (s1 s2 s3 : string) :
  (s1 +:+ s2) +:+ s3 = s1 +:+ (s2 +:+ s3).
Proof.
  induction s1 as [|c s1 IH]; [reflexivity |].
  rewrite !append_cons. f_equal. exact IH.
Qed.

Lemma append_eq_empty (s1 s2 : string) :
  s1 +:+ s2 = "" -> s1 = "" /\ s2 = "".
Proof. destruct s1; [auto | rewrite append_cons; discriminate]. Qed.

Lemma nullable_sound (r : regex) : nullable r = true -> Matches r "".
Proof.
  induction r as [| |p|r1 IH1 r2 IH2|r1 IH1 r2 IH2|r IH]; simpl; intros H;
    try discriminate.
  - constructor.
  - apply orb_true_iff in H as [H|H]; [apply MAltL | apply MAltR]; auto.
  - apply andb_true_iff in H as [H1 H2].
    change "" with ("" +:+ ""). constructor; auto.
  - constructor.
Qed.

Lemma nullable_complete (r : regex) (s : string) :
  Matches r s -> s = "" -> nullable r = true.
Proof.
  induction 1 as [|p c Hp|r1 r2 s H IH|r1 r2 s H IH
                 |r1 r2 s1 s2 H1 IH1 H2 IH2| |r s1 s2 H1 IH1 H2 IH2];
    simpl; intros E; try reflexivity; try discriminate.
  - rewrite IH by assumption. reflexivity.
  - rewrite IH by assumption. apply orb_true_r.
  - apply append_eq_empty in E as [E1 E2]. now rewrite IH1, IH2.
Qed.

Lemma nullable_iff (r : regex) : nullable r = true <-> Matches r "".
Proof.
  split; [apply nullable_sound | intros H; eapply nullable_complete; eauto].
Qed.

Lemma deriv_sound (c : ascii) (r : regex) :
  forall s, Matches (deriv c r) s -> Matches r (String c s).
Proof.
  induction r as [| |p|r1 IH1 r2 IH2|r1 IH1 r2 IH2|r IH]; simpl; intros s H.
  - inversion H.
  - inversion H.
  - destruct (p c) eqn:Hp; inversion H; subst. now constructor.
  - inversion H; subst; [apply MAltL | apply MAltR]; auto.
  - destruct (nullable r1) eqn:Hn.
    + inversion H as [| |? ? ? H'|? ? ? H'| | |]; subst.
      * inversion H' as [| | | |? ? s1 s2 Ha Hb| |]; subst.
        change (String c (s1 +:+ s2)) with (String c s1 +:+ s2).
        constructor; auto.
      * change (String c s) with ("" +:+ String c s).
        constructor; [now apply nullable_sound | auto].
    + inversion H as [| | | |? ? s1 s2 Ha Hb| |]; subst.
      change (String c (s1 +:+ s2)) with (String c s1 +:+ s2).
      constructor; auto.
  - inversion H as [| | | |? ? s1 s2 Ha Hb| |]; subst.
    change (String c (s1 +:+ s2)) with (String c s1 +:+ s2).
    constructor; auto.
Qed.

Lemma deriv_complete (r : regex) (w : string) :
  Matches r w -> forall c s, w = String c s -> Matches (deriv c r) s.
Proof.
  induction 1 as [|p d Hp|r1 r2 s0 H IH|r1 r2 s0 H IH
                 |r1 r2 s1 s2 H1 IH1 H2 IH2| |r s1 s2 H1 IH1 H2 IH2];
    intros c s E; simpl.
  - discriminate.
  - injection E as -> <-. rewrite Hp. constructor.
  - apply MAltL; eauto.
  - apply MAltR; eauto.
  - destruct s1 as [|c1 s1];
      [rewrite append_nil_l in E | rewrite append_cons in E].
    + assert (Hn : nullable r1 = true) by (eapply nullable_complete; eauto).
      rewrite Hn. apply MAltR; eauto.
    + injection E as -> <-.
      destruct (nullable r1); [apply MAltL |]; constructor; eauto.
  - discriminate.
  - destruct s1 as [|c1 s1];
      [rewrite append_nil_l in E | rewrite append_cons in E].
    + eauto.
    + injection E as -> <-. constructor; eauto.
Qed.

Lemma deriv_iff (c : ascii) (r : regex) (s : string) :
  Matches (deriv c r) s <-> Matches r (String c s).
Proof.
  split; [apply deriv_sound | intros H; eapply deriv_complete; eauto].
Qed.

Lemma test_iff (r : regex) (s : string) : test r s = true <-> Matches r s.
Proof.
  revert r; induction s as [|c s IH]; intros r; simpl.
  - apply nullable_iff.
  - rewrite IH. apply deriv_iff.
Qed.

Lemma nullable_deriv_map (f : ascii -> ascii) (r : regex) (c : ascii) :
  class_invariant f r ->
  deriv (f c) r = deriv c r.
Proof.
  induction r as [| |p|r1 IH1 r2 IH2|r1 IH1 r2 IH2|r IH]; simpl; intros H;
    try reflexivity.
  - now rewrite H.
  - destruct H as [H1 H2]. now rewrite IH1, IH2.
  - destruct H as [H1 H2]. now rewrite IH1, IH2.
  - now rewrite IH.
Qed.

Lemma class_invariant_deriv (f : ascii -> ascii) (r : regex) (c : ascii) :
  class_invariant f r -> class_invariant f (deriv c r).
Proof.
  induction r as [| |p|r1 IH1 r2 IH2|r1 IH1 r2 IH2|r IH]; simpl; intros H.
  - exact I.
  - exact I.
  - destruct (p c); exact I.
  - destruct H; split; auto.
  - destruct H; destruct (nullable r1); simpl; auto.
  - split; auto.
Qed.

Lemma test_map_string (f : ascii -> ascii) (s : string) :
  forall r, class_invariant f r -> test r (map_string f s) = test r s.
Proof.
  induction s as [|c s IH]; intros r H; simpl; [reflexivity |].
  rewrite nullable_deriv_map by assumption.
  apply IH, class_invariant_deriv, H.
Qed.

(** Inversions of the language, used to read a match back. *)
Lemma Matches_Cat_inv (r1 r2 : regex) (s : string) :
  Matches (Cat r1 r2) s ->
  exists s1 s2, s = s1 +:+ s2 /\ Matches r1 s1 /\ Matches r2 s2.
Proof. inversion 1; subst; eauto. Qed.

Lemma Matches_Alt_inv (r1 r2 : regex) (s : string) :
  Matches (Alt r1 r2) s -> Matches r1 s \/ Matches r2 s.
Proof. inversion 1; subst; auto. Qed.

Lemma Matches_Class_inv (p : ascii -> bool) (s : string) :
  Matches (Class p) s -> exists c, s = String c "" /\ p c = true.
Proof. inversion 1; subst; eauto. Qed.

Lemma Matches_Eps_inv (s : string) : Matches Eps s -> s = "".
Proof. inversion 1; reflexivity. Qed.

Lemma Matches_Lit_inv (c : ascii) (s : string) :
  Matches (Lit c) s -> s = String c "".
Proof.
  intros H. apply Matches_Class_inv in H as (d & -> & Hd).
  apply Ascii.eqb_eq in Hd. now subst.
Qed.

(** A match of [Star (Class p)] or of [Rep n (Class p)] is a string of
    characters of the class. *)
Lemma Matches_Star_Class (p : ascii -> bool) (r : regex) (s : string) :
  Matches r s -> r = Star (Class p) -> all_chars p s = true.
Proof.
  induction 1 as [| | | | | |r0 s1 s2 H1 IH1 H2 IH2]; intros E;
    try discriminate; [reflexivity |].
  injection E as ->.
  apply Matches_Class_inv in H1 as (c & -> & Hc). simpl.
  rewrite Hc. simpl. now apply IH2.
Qed.

Lemma Matches_Rep_Class (p : ascii -> bool) (n : nat) :
  forall s, Matches (Rep n (Class p)) s ->
            all_chars p s = true /\ String.length s = n.
Proof.
  induction n as [|n IH]; simpl; intros s H.
  - apply Matches_Eps_inv in H as ->. auto.
  - apply Matches_Cat_inv in H as (s1 & s2 & -> & H1 & H2).
    apply Matches_Class_inv in H1 as (c & -> & Hc).
    apply IH in H2 as [Ha Hl].
    rewrite append_cons, append_nil_l. simpl. rewrite Hc, Ha, Hl. auto.
Qed.

End RegexFacts.

(** ** The validators *)

Section Validators.

Import RegexFacts.

Lemma strip_non_digits_app (s1 s2 : string) :
  strip_non_digits (s1 +:+ s2) = strip_non_digits s1 +:+ strip_non_digits s2.
Proof.
  induction s1 as [|c s1 IH]; [reflexivity |].
  rewrite append_cons. simpl. destruct (is_digit c); [|exact IH].
  rewrite append_cons. f_equal. exact IH.
Qed.

Lemma strip_non_digits_digits (s : string) :
  all_chars is_digit s = true -> strip_non_digits s = s.
Proof.
  induction s as [|c s IH]; simpl; [reflexivity |].
  destruct (is_digit c); simpl; [|discriminate].
  intros H. f_equal. auto.
Qed.

Lemma strip_non_digits_all_digits (s : string) :
  all_chars is_digit (strip_non_digits s) = true.
Proof.
  induction s as [|c s IH]; simpl; [reflexivity |].
  destruct (is_digit c) eqn:E; simpl; [rewrite E|]; auto.
Qed.

Lemma length_append (s1 s2 : string) :
  String.length (s1 +:+ s2) = String.length s1 + String.length s2.
Proof.
  induction s1 as [|c s1 IH]; [reflexivity |].
  rewrite append_cons. simpl. now rewrite IH.
Qed.

Lemma phone_sep_strip (s : string) :
  Matches phone_sep s -> strip_non_digits s = "".
Proof.
  intros H. apply Matches_Alt_inv in H as [H|H].
  - apply Matches_Alt_inv in H as [H|H].
    + apply Matches_Lit_inv in H as ->. reflexivity.
    + apply Matches_Class_inv in H as (c & -> & Hc). simpl.
      destruct (is_digit c) eqn:Hd; [|reflexivity].
      exfalso. revert Hc Hd.
      destruct c as [[] [] [] [] [] [] [] []]; vm_compute; congruence.
  - apply Matches_Eps_inv in H as ->. reflexivity.
Qed.

Lemma phone_prefix_strip (s : string) :
  Matches phone_prefix s -> strip_non_digits s = "" \/ strip_non_digits s = "1".
Proof.
  intros H. apply Matches_Alt_inv in H as [H|H].
  - apply Matches_Alt_inv in H as [H|H].
    + apply Matches_Cat_inv in H as (s1 & s2 & -> & H1 & H2).
      apply Matches_Lit_inv in H1 as ->.
      apply Matches_Class_inv in H2 as (c & -> & Hc). right.
      rewrite append_cons, append_nil_l. simpl.
      destruct (is_digit c) eqn:Hd; [|reflexivity].
      exfalso. revert Hc Hd.
      destruct c as [[] [] [] [] [] [] [] []]; vm_compute; congruence.
    + apply Matches_Alt_inv in H as [H|H].
      * apply Matches_Lit_inv in H as ->. now right.
      * apply Matches_Eps_inv in H as ->. now left.
  - apply Matches_Eps_inv in H as ->. now left.
Qed.

Lemma digits_rep_strip (n : nat) (s : string) :
  Matches (Rep n (Class is_digit)) s ->
  strip_non_digits s = s /\ String.length s = n.
Proof.
  intros H. apply Matches_Rep_Class in H as [Ha Hl].
  split; [now apply strip_non_digits_digits | exact Hl].
Qed.

Lemma phone_area_strip (s : string) :
  Matches phone_area s -> String.length (strip_non_digits s) = 3.
Proof.
  intros H. apply Matches_Alt_inv in H as [H|H].
  - apply Matches_Cat_inv in H as (s1 & s2 & -> & H1 & H2).
    apply Matches_Lit_inv in H1 as ->.
    apply Matches_Cat_inv in H2 as (s3 & s4 & -> & H3 & H4).
    apply Matches_Lit_inv in H4 as ->.
    apply digits_rep_strip in H3 as [E L].
    rewrite !strip_non_digits_app, E. simpl (strip_non_digits _).
    rewrite append_nil_l, append_empty_r. exact L.
  - apply digits_rep_strip in H as [E L]. now rewrite E.
Qed.

(** What the phone pattern accepts, read on the digits that remain
    after stripping: ten digits, or eleven with a leading 1. *)
Lemma phone_regex_digits (s : string) :
  phone_regex_test s = true ->
  String.length (strip_non_digits s) = 10
  \/ (String.length (strip_non_digits s) = 11
      /\ starts_with "1" (strip_non_digits s) = true).
Proof.
  intros H. apply test_iff in H.
  apply Matches_Cat_inv in H as (p & r1 & -> & Hp & H).
  apply Matches_Cat_inv in H as (a & r2 & -> & Ha & H).
  apply Matches_Cat_inv in H as (x & r3 & -> & Hx & H).
  apply Matches_Cat_inv in H as (b & r4 & -> & Hb & H).
  apply Matches_Cat_inv in H as (y & c & -> & Hy & Hc).
  apply phone_sep_strip in Hx, Hy.
  apply phone_area_strip in Ha.
  apply digits_rep_strip in Hb as [Eb Lb], Hc as [Ec Lc].
  rewrite !strip_non_digits_app, Hx, Hy, Eb, Ec, !append_nil_l.
  apply phone_prefix_strip in Hp as [-> | ->].
  - left. rewrite append_nil_l, !length_append. lia.
  - right. split; [rewrite !length_append; simpl; lia |].
    rewrite append_cons. reflexivity.
Qed.

Lemma to_upper_invariant : class_invariant to_upper email_regex.
Proof.
  simpl. repeat split; intros c;
    destruct c as [[] [] [] [] [] [] [] []]; vm_compute; reflexivity.
Qed.

Lemma to_lower_invariant : class_invariant to_lower email_regex.
Proof.
  simpl. repeat split; intros c;
    destruct c as [[] [] [] [] [] [] [] []]; vm_compute; reflexivity.
Qed.

End Validators.

Section EmailShape.

Import RegexFacts.

Lemma all_chars_app (p : ascii -> bool) (s1 s2 : string) :
  all_chars p (s1 +:+ s2) = all_chars p s1 && all_chars p s2.
Proof.
  induction s1 as [|c s1 IH]; [reflexivity |].
  rewrite append_cons. simpl. rewrite IH. apply andb_assoc.
Qed.

Lemma append_nonempty_l (s1 s2 : string) : s1 <> "" -> s1 +:+ s2 <> "".
Proof. intros H E. apply append_eq_empty in E as [E _]. auto. Qed.

Lemma Matches_Plus_Class (p : ascii -> bool) (s : string) :
  Matches (Plus (Class p)) s -> s <> "" /\ all_chars p s = true.
Proof.
  intros H. apply Matches_Cat_inv in H as (s1 & s2 & -> & H1 & H2).
  apply Matches_Class_inv in H1 as (c & -> & Hc).
  apply Matches_Star_Class with (p := p) in H2; [|reflexivity].
  rewrite append_cons, append_nil_l. simpl. rewrite Hc, H2.
  split; [discriminate | reflexivity].
Qed.

Lemma Matches_label_dot (w : string) :
  Matches label_dot w -> exists pre, w = pre +:+ "." /\ pre <> "".
Proof.
  intros H. apply Matches_Cat_inv in H as (s1 & s2 & -> & H1 & H2).
  apply Matches_Lit_inv in H2 as ->.
  apply Matches_Plus_Class in H1 as [Hne _]. eauto.
Qed.

Lemma Matches_Star_label_dot (r : regex) (w : string) :
  Matches r w -> r = Star label_dot ->
  w = "" \/ exists pre, w = pre +:+ "." /\ pre <> "".
Proof.
  induction 1 as [| | | | | |r0 s1 s2 H1 IH1 H2 IH2]; intros E;
    try discriminate; [now left |].
  injection E as ->. right.
  apply Matches_label_dot in H1 as (p1 & -> & Hp1).
  destruct (IH2 eq_refl) as [-> | (p2 & -> & Hp2)].
  - exists p1. now rewrite append_empty_r.
  - exists ((p1 +:+ ".") +:+ p2). split.
    + now rewrite !append_assoc.
    + now apply append_nonempty_l, append_nonempty_l.
Qed.

Lemma Matches_email_local (s : string) : Matches email_local s -> s <> "".
Proof.
  intros H. apply Matches_Alt_inv in H as [H|H];
    apply Matches_Cat_inv in H as (s1 & s2 & -> & H1 & H2).
  - apply Matches_Plus_Class in H1 as [Hne _]. now apply append_nonempty_l.
  - apply Matches_Lit_inv in H1 as ->. rewrite append_cons. discriminate.
Qed.

Lemma Matches_email_domain (d : string) :
  Matches email_domain d ->
  exists pre tld,
    d = pre +:+ "." +:+ tld /\ pre <> ""
    /\ 2 <= String.length tld /\ all_chars is_atom tld = true.
Proof.
  intros H. apply Matches_Cat_inv in H as (x & t & -> & Hx & Ht).
  apply Matches_Cat_inv in Hx as (x1 & x2 & -> & Hx1 & Hx2).
  apply Matches_label_dot in Hx1 as (p1 & -> & Hp1).
  apply Matches_Cat_inv in Ht as (t1 & t2 & -> & Ht1 & Ht2).
  apply Matches_Rep_Class in Ht1 as [Ha1 Hl1].
  apply Matches_Star_Class with (p := is_atom) in Ht2; [|reflexivity].
  assert (Htld : 2 <= String.length (t1 +:+ t2)
                 /\ all_chars is_atom (t1 +:+ t2) = true).
  { rewrite length_append, all_chars_app, Ha1, Ht2. split; [lia | reflexivity]. }
  destruct (Matches_Star_label_dot _ _ Hx2 eq_refl) as [-> | (p2 & -> & Hp2)].
  - exists p1, (t1 +:+ t2). rewrite append_empty_r, !append_assoc. tauto.
  - exists ((p1 +:+ ".") +:+ p2), (t1 +:+ t2). rewrite !append_assoc.
    split; [reflexivity |]. split; [|exact Htld].
    rewrite <- !append_assoc. now apply append_nonempty_l, append_nonempty_l.
Qed.

(** What the email pattern accepts: a non-empty local part, the at sign,
    and a domain that ends with a dot and a last label of two or more
    characters of the class, which holds neither a dot nor an at sign. *)
Lemma email_regex_shape (s : string) :
  email_regex_test s = true ->
  exists local pre tld,
    s = local +:+ "@" +:+ pre +:+ "." +:+ tld
    /\ local <> "" /\ pre <> ""
    /\ 2 <= String.length tld /\ all_chars is_atom tld = true.
Proof.
  intros H. apply test_iff in H.
  apply Matches_Cat_inv in H as (l & r & -> & Hl & H).
  apply Matches_Cat_inv in H as (a & d & -> & Ha & Hd).
  apply Matches_Lit_inv in Ha as ->.
  apply Matches_email_local in Hl.
  apply Matches_email_domain in Hd as (pre & tld & -> & Hpre & Htld).
  exists l, pre, tld. tauto.
Qed.

End EmailShape.

(** C6: the phone pattern accepts the two sample numbers and rejects the
    short one; every accepted string holds ten digits, or eleven with a
    leading 1, once its non-digits are removed; normalisation removes
    every non-digit and nothing else, and maps the sample number with
    parentheses, space and hyphen to its ten digits. *)
Theorem C6_phone_validator :
  phone_regex_test "(888) 888-8888" = true
  /\ phone_regex_test "18888888888" = true
  /\ phone_regex_test "12345" = false
  /\ strip_non_digits "(888) 888-8888" = "8888888888"
  /\ (forall s, all_chars is_digit (strip_non_digits s) = true)
  /\ (forall s, all_chars is_digit s = true -> strip_non_digits s = s)
  /\ (forall s1 s2,
        strip_non_digits (s1 +:+ s2)
        = strip_non_digits s1 +:+ strip_non_digits s2)
  /\ (forall s, phone_regex_test s = true ->
        String.length (strip_non_digits s) = 10
        \/ (String.length (strip_non_digits s) = 11
            /\ starts_with "1" (strip_non_digits s) = true)).
Proof.
  do 4 (split; [vm_compute; reflexivity |]).
  split; [apply strip_non_digits_all_digits |].
  split; [apply strip_non_digits_digits |].
  split; [apply strip_non_digits_app | apply phone_regex_digits].
Qed.

(** C7: the email pattern accepts [a@b.com] and rejects [a@b] and
    [not-an-email]; every accepted string is a non-empty local part, an
    at sign, and a domain ending in a dot followed by a last label of at
    least two characters; changing the case of the letters does not
    change the answer. *)
Theorem C7_email_validator :
  email_regex_test "a@b.com" = true
  /\ email_regex_test "a@b" = false
  /\ email_regex_test "not-an-email" = false
  /\ (forall s, email_regex_test s = true ->
        exists local pre tld,
          s = local +:+ "@" +:+ pre +:+ "." +:+ tld
          /\ local <> "" /\ pre <> ""
          /\ 2 <= String.length tld /\ all_chars is_atom tld = true)
  /\ (forall s, email_regex_test (map_string to_upper s) = email_regex_test s)
  /\ (forall s, email_regex_test (map_string to_lower s) = email_regex_test s).
Proof.
  do 3 (split; [vm_compute; reflexivity |]).
  split; [apply email_regex_shape |].
  split; intros s; apply RegexFacts.test_map_string;
    [apply to_upper_invariant | apply to_lower_invariant].
Qed.

(** ** The wire format reads back *)

Section WireFormat.

Lemma upto_In (n z : Z) : (0 <= z < n)%Z -> In z (upto n).
Proof.
  intros H. unfold upto. apply in_map_iff. exists (Z.to_nat z).
  split; [lia |]. apply in_seq. lia.
Qed.

Lemma reads_back4_all : forallb reads_back4 (upto 10000%Z) = true.
Proof. vm_compute. reflexivity. Qed.

Lemma reads_back2_all : forallb reads_back2 (upto 100%Z) = true.
Proof. vm_compute. reflexivity. Qed.

Lemma fmt_YYYY_digits (y : Z) :
  (0 <= y <= 9999)%Z ->
  exists a b c d,
    fmt_YYYY y = String a (String b (String c (String d "")))
    /\ is_digit a = true /\ is_digit b = true
    /\ is_digit c = true /\ is_digit d = true
    /\ toInt (String a (String b (String c (String d "")))) = y.
Proof.
  intros H.
  pose proof (proj1 (forallb_forall _ _) reads_back4_all y) as Hc.
  specialize (Hc (upto_In 10000%Z y ltac:(lia))).
  unfold reads_back4 in Hc.
  destruct (fmt_YYYY y) as [|a [|b [|c [|d [|? ?]]]]]; try discriminate.
  exists a, b, c, d.
  apply andb_true_iff in Hc as [Hc E]. apply Z.eqb_eq in E.
  apply andb_true_iff in Hc as [Hc D4].
  apply andb_true_iff in Hc as [Hc D3].
  apply andb_true_iff in Hc as [D1 D2].
  repeat split; assumption.
Qed.

Lemma zeroFill2_digits (n : Z) :
  (0 <= n <= 99)%Z ->
  exists a b,
    zeroFill n 2 = String a (String b "")
    /\ is_digit a = true /\ is_digit b = true
    /\ toInt (String a (String b "")) = n.
Proof.
  intros H.
  pose proof (proj1 (forallb_forall _ _) reads_back2_all n) as Hc.
  specialize (Hc (upto_In 100%Z n ltac:(lia))).
  unfold reads_back2 in Hc.
  destruct (zeroFill n 2) as [|a [|b [|? ?]]]; try discriminate.
  exists a, b.
  apply andb_true_iff in Hc as [Hc E]. apply Z.eqb_eq in E.
  apply andb_true_iff in Hc as [D1 D2].
  repeat split; assumption.
Qed.

Lemma wire_day_bounds (c : civil) :
  wire_day c = true ->
  valid_civil c = true
  /\ (0 <= year c <= 9999)%Z /\ (1 <= month c <= 12)%Z /\ (1 <= day c <= 31)%Z.
Proof.
  unfold wire_day. intros H.
  apply andb_true_iff in H as [H Hy2]. apply andb_true_iff in H as [Hv Hy1].
  split; [exact Hv |].
  unfold valid_civil in Hv.
  repeat (apply andb_true_iff in Hv as [Hv ?]).
  assert (days_in_month (year c) (month c) <= 31)%Z.
  { unfold days_in_month.
    repeat match goal with |- context [if ?b then _ else _] => destruct b end;
      lia. }
  lia.
Qed.

(** Parsing a formatted day gives the day back. *)
Lemma parse_format_key (c : civil) :
  wire_day c = true -> parse_key (format_key c) = Some c.
Proof.
  intros H. apply wire_day_bounds in H as (Hv & Hy & Hm & Hd).
  destruct c as [y m d]; simpl in *.
  destruct (fmt_YYYY_digits y Hy) as (a1 & a2 & a3 & a4 & Ey & D1 & D2 & D3 & D4 & Iy).
  destruct (zeroFill2_digits d ltac:(lia)) as (b1 & b2 & Ed & D5 & D6 & Id).
  destruct (zeroFill2_digits m ltac:(lia)) as (c1 & c2 & Em & D7 & D8 & Im).
  unfold format_key; simpl year; simpl month; simpl day.
  rewrite Ey, Ed, Em.
  cbv beta iota fix delta [String.append].
  unfold parse_key.
  cbn [find_digits take_digits]. rewrite D1, D2, D3, D4.
  cbn [skip_hyphen find_after Ascii.eqb Bool.eqb].
  cbn [find_digits take_digits]. rewrite D5, D6.
  cbn [skip_hyphen find_after Ascii.eqb Bool.eqb].
  cbn [find_digits take_digits]. rewrite D7, D8.
  unfold parse_year. cbn [String.length Nat.eqb].
  rewrite Iy, Id, Im, Hv. reflexivity.
Qed.

Lemma canon_format_key (c : civil) :
  wire_day c = true -> canon (format_key c) = format_key c.
Proof. intros H. unfold canon. now rewrite parse_format_key. Qed.

Lemma format_key_inj (c1 c2 : civil) :
  wire_day c1 = true -> wire_day c2 = true ->
  format_key c1 = format_key c2 -> c1 = c2.
Proof.
  intros H1 H2 E. apply parse_format_key in H1, H2.
  rewrite E in H1. congruence.
Qed.

Lemma digit_value (c : ascii) :
  is_digit c = true -> (0 <= Z.of_N (code c) - 48 <= 9)%Z.
Proof.
  unfold is_digit. intros H. apply andb_true_iff in H as [H1 H2].
  apply N.leb_le in H1, H2. lia.
Qed.

Lemma toInt_go_bounds (s : string) : forall acc,
  all_chars is_digit s = true -> (0 <= acc)%Z ->
  (acc * 10 ^ Z.of_nat (String.length s) <= toInt_go s acc
   < (acc + 1) * 10 ^ Z.of_nat (String.length s))%Z.
Proof.
  induction s as [|c s IH]; intros acc Hd Hacc.
  - simpl. lia.
  - simpl in Hd. apply andb_true_iff in Hd as [Hc Hd].
    apply digit_value in Hc.
    cbn [toInt_go String.length].
    specialize (IH (10 * acc + (Z.of_N (code c) - 48))%Z Hd ltac:(lia)).
    rewrite Nat2Z.inj_succ, Z.pow_succ_r by lia.
    assert (0 < 10 ^ Z.of_nat (String.length s))%Z
      by (apply Z.pow_pos_nonneg; lia).
    nia.
Qed.

Lemma take_digits_spec (n : nat) : forall s ds r,
  take_digits n s = (ds, r) ->
  String.length ds <= n /\ all_chars is_digit ds = true.
Proof.
  induction n as [|n IH]; intros s ds r H.
  - destruct s; injection H as <- <-; simpl; auto.
  - destruct s as [|c s]; [injection H as <- <-; simpl; split; [lia | auto] |].
    simpl in H. destruct (is_digit c) eqn:Hc.
    + destruct (take_digits n s) as [ds' r'] eqn:E.
      injection H as <- <-. apply IH in E as [Hl Ha].
      simpl. rewrite Hc, Ha. split; [lia | reflexivity].
    + injection H as <- <-. simpl. split; [lia | reflexivity].
Qed.

Lemma find_digits_spec (n : nat) (s : string) ds r :
  find_digits n s = Some (ds, r) ->
  String.length ds <= n /\ all_chars is_digit ds = true.
Proof.
  induction s as [|c s IH]; [discriminate |].
  cbn [find_digits]. destruct (is_digit c); [|exact IH].
  intros [= H]. now apply take_digits_spec in H.
Qed.

Lemma parse_year_bounds (ys : string) :
  String.length ys <= 4 -> all_chars is_digit ys = true ->
  (0 <= parse_year ys <= 9999)%Z.
Proof.
  intros Hl Hd. pose proof (toInt_go_bounds ys 0 Hd ltac:(lia)) as Hb.
  fold (toInt ys) in Hb. unfold parse_year.
  destruct (Nat.eqb (String.length ys) 2) eqn:E.
  - apply Nat.eqb_eq in E. rewrite E in Hb. simpl in Hb.
    destruct (68 <? toInt ys)%Z; lia.
  - assert (10 ^ Z.of_nat (String.length ys) <= 10 ^ 4)%Z
      by (apply Z.pow_le_mono_r; lia).
    lia.
Qed.

(** What parses is a day that the wire format carries. *)
Lemma parse_key_wire_day (s : string) (c : civil) :
  parse_key s = Some c -> wire_day c = true.
Proof.
  unfold parse_key.
  destruct (find_digits 4 s) as [[ys r1]|] eqn:Ey; [|discriminate].
  apply find_digits_spec in Ey as [Hl Hd].
  pose proof (parse_year_bounds ys Hl Hd) as Hy.
  destruct (find_digits 2 (skip_hyphen r1)) as [[ds r]|];
    match goal with
    | |- context [valid_civil ?x] => destruct (valid_civil x) eqn:Hv
    end; try discriminate; intros [= <-];
    unfold wire_day; rewrite Hv; simpl year;
    apply andb_true_iff; (split; [apply Z.leb_le | apply Z.leb_le]); lia.
Qed.

(** Re-formatting is idempotent: every date that [handleFetch] uses as
    a key, and every date that the handler of the POST request stores,
    is canonical. *)
Lemma canon_idem (s : string) : canon (canon s) = canon s.
Proof.
  unfold canon at 2 3. destruct (parse_key s) as [c|] eqn:E; simpl.
  - apply canon_format_key. eapply parse_key_wire_day, E.
  - vm_compute. reflexivity.
Qed.

End WireFormat.

(** ** Arrays of slots *)

Section Arrays.

Implicit Types a : jsarray.

Lemma array_set_length a i v : length a <= length (array_set a i v).
Proof.
  unfold array_set. case_decide.
  - now rewrite length_insert.
  - rewrite length_app. lia.
Qed.

Lemma array_set_lookup_eq a i v : array_set a i v !! i = Some (Some v).
Proof.
  unfold array_set. case_decide.
  - now apply list_lookup_insert_eq.
  - rewrite lookup_app_r by lia. rewrite lookup_app_r; rewrite length_replicate; [|lia].
    replace (i - length a - (i - length a)) with 0 by lia. reflexivity.
Qed.

Lemma array_set_lookup_old a i j v :
  j <> i -> j < length a -> array_set a i v !! j = a !! j.
Proof.
  intros Hne Hlt. unfold array_set. case_decide.
  - now apply list_lookup_insert_ne.
  - now apply lookup_app_l.
Qed.

(** Past the old end, a write leaves holes and the written value. *)
Lemma array_set_lookup_new a i j v x :
  length a <= j -> array_set a i v !! j = Some x -> x = None \/ x = Some v.
Proof.
  intros Hge. unfold array_set. case_decide.
  - intros H'. apply lookup_lt_Some in H'. rewrite length_insert in H'. lia.
  - rewrite lookup_app_r by lia. intros H'.
    apply list_elem_of_lookup_2 in H'.
    apply elem_of_app in H' as [H'|H'].
    + apply elem_of_replicate in H' as [-> _]. now left.
    + apply list_elem_of_singleton in H' as ->. now right.
Qed.

Lemma array_get_set_eq a i : array_get (array_set a i true) i = true.
Proof. unfold array_get. now rewrite array_set_lookup_eq. Qed.

Lemma array_get_set_mono a i j :
  array_get a j = true -> array_get (array_set a i true) j = true.
Proof.
  intros H. destruct (decide (j = i)) as [->|Hne]; [apply array_get_set_eq |].
  unfold array_get in *.
  destruct (a !! j) as [o|] eqn:E; [|discriminate].
  rewrite array_set_lookup_old; [now rewrite E | exact Hne |].
  now apply lookup_lt_Some in E.
Qed.

Lemma array_set_id a i : array_get a i = true -> array_set a i true = a.
Proof.
  unfold array_get. intros H.
  destruct (a !! i) as [[[]|]|] eqn:E; try discriminate.
  unfold array_set. rewrite decide_True by (now apply lookup_lt_Some in E).
  now apply list_insert_id.
Qed.

Lemma every_true_lookup a :
  every_true a = true <-> forall i, a !! i <> Some (Some false).
Proof.
  unfold every_true. rewrite forallb_forall. split.
  - intros H i E. apply list_elem_of_lookup_2, list_elem_of_In in E.
    apply H in E. discriminate.
  - intros H o Ho. apply list_elem_of_In, list_elem_of_lookup in Ho as [i Hi].
    destruct o as [[]|]; try reflexivity. now apply H in Hi.
Qed.

Lemma every_true_set a i :
  every_true a = true -> every_true (array_set a i true) = true.
Proof.
  rewrite !every_true_lookup. intros H j E.
  destruct (decide (j = i)) as [->|Hne].
  - rewrite array_set_lookup_eq in E. discriminate.
  - destruct (decide (j < length a)) as [Hlt|Hge].
    + rewrite array_set_lookup_old in E by assumption. now apply H in E.
    + apply array_set_lookup_new in E as [E|E]; [discriminate.. | lia].
Qed.

Lemma array_ok_fresh : array_ok fresh_slots.
Proof.
  split; [simpl; lia |]. split.
  - intros i Hi. exists false.
    do 8 (destruct i as [|i]; [reflexivity |]). lia.
  - intros i Hi E. apply lookup_lt_Some in E. simpl in E. lia.
Qed.

Lemma array_ok_set a i : array_ok a -> array_ok (array_set a i true).
Proof.
  intros (Hlen & Hlow & Hhigh). split; [|split].
  - pose proof (array_set_length a i true). lia.
  - intros j Hj. destruct (decide (j = i)) as [->|Hne].
    + exists true. apply array_set_lookup_eq.
    + rewrite array_set_lookup_old by (auto; lia). now apply Hlow.
  - intros j Hj E. destruct (decide (j = i)) as [->|Hne].
    + rewrite array_set_lookup_eq in E. discriminate.
    + destruct (decide (j < length a)) as [Hlt|Hge].
      * rewrite array_set_lookup_old in E by assumption. now apply Hhigh in E.
      * apply array_set_lookup_new in E as [E|E]; [discriminate.. | lia].
Qed.

(** On such an array, [every] answers for the eight slots of the day. *)
Lemma every_true_slots a :
  array_ok a ->
  every_true a = true <-> forall i, i < 8 -> array_get a i = true.
Proof.
  intros (Hlen & Hlow & Hhigh). rewrite every_true_lookup. split.
  - intros H i Hi. destruct (Hlow i Hi) as [b Hb]. unfold array_get.
    rewrite Hb. destruct b; [reflexivity |]. now apply H in Hb.
  - intros H i E. destruct (decide (i < 8)) as [Hi|Hi].
    + specialize (H i Hi). unfold array_get in H. rewrite E in H. discriminate.
    + apply (Hhigh i); [lia | exact E].
Qed.

Lemma array_ok_nonempty a : array_ok a -> Nat.eqb (length a) 0 = false.
Proof. intros (Hlen & _). apply Nat.eqb_neq. lia. Qed.

End Arrays.

(** ** The reducer and the collapse loop *)

Section Schedule.

Implicit Types (S : gmap string entry) (b : booking) (rs : list booking).

Lemma fold_bookings_foldl today rs :
  fold_bookings today rs = foldl add_booking (initSchedule today) rs.
Proof. destruct rs; reflexivity. Qed.

(** On a canonical record the reducer rewrites one entry. *)
Lemma add_booking_canonical S b :
  canonical b ->
  add_booking S b = <[b_date b := mark (b_slot b) (S !! b_date b)]> S.
Proof.
  unfold canonical, add_booking. intros ->.
  destruct (S !! b_date b) as [[|a]|] eqn:E; simpl.
  - rewrite E. symmetry. now apply insert_id.
  - rewrite E. reflexivity.
  - rewrite lookup_insert_eq. apply insert_insert_eq.
Qed.

Lemma schedule_ok_insert S k a :
  schedule_ok S -> array_ok a -> schedule_ok (<[k := Slots a]> S).
Proof.
  intros HS Ha k' a' E. destruct (decide (k = k')) as [->|Hne].
  - rewrite lookup_insert_eq in E. now injection E as <-.
  - rewrite lookup_insert_ne in E by assumption. eauto.
Qed.

Lemma schedule_ok_init today : schedule_ok (initSchedule today).
Proof.
  intros k a E. unfold initSchedule in E.
  apply lookup_singleton_Some in E as [_ E]. discriminate.
Qed.

(** Every array stays well shaped, whatever the record is. *)
Lemma schedule_ok_add S b : schedule_ok S -> schedule_ok (add_booking S b).
Proof.
  intros HS. unfold add_booking.
  set (s1 := match S !! b_date b with
             | Some _ => S
             | None => <[canon (b_date b) := Slots fresh_slots]> S
             end).
  assert (H1 : schedule_ok s1).
  { unfold s1. destruct (S !! b_date b); [exact HS |].
    apply schedule_ok_insert; [exact HS | apply array_ok_fresh]. }
  destruct (s1 !! canon (b_date b)) as [[|a]|] eqn:E; try exact H1.
  apply schedule_ok_insert; [exact H1 |].
  apply array_ok_set. eauto.
Qed.

Lemma schedule_ok_foldl rs : forall S,
  schedule_ok S -> schedule_ok (foldl add_booking S rs).
Proof.
  induction rs as [|b rs IH]; intros S HS; simpl; [exact HS |].
  apply IH, schedule_ok_add, HS.
Qed.

Lemma marked_add_same S b :
  canonical b -> marked (add_booking S b) (b_date b) (b_slot b).
Proof.
  intros Hc. rewrite add_booking_canonical by assumption.
  unfold marked. rewrite lookup_insert_eq.
  destruct (S !! b_date b) as [[|a]|]; simpl; [now left | right..];
    eexists; (split; [reflexivity | apply array_get_set_eq]).
Qed.

Lemma marked_add_mono S b d s :
  canonical b -> marked S d s -> marked (add_booking S b) d s.
Proof.
  intros Hc Hm. rewrite add_booking_canonical by assumption.
  unfold marked in *. destruct (decide (b_date b = d)) as [<-|Hne].
  - rewrite lookup_insert_eq.
    destruct Hm as [-> | (a & -> & Ha)]; simpl; [now left |].
    right. eexists. split; [reflexivity | now apply array_get_set_mono].
  - now rewrite lookup_insert_ne.
Qed.

Lemma marked_foldl_mono rs : forall S d s,
  Forall canonical rs -> marked S d s -> marked (foldl add_booking S rs) d s.
Proof.
  induction rs as [|b rs IH]; intros S d s Hc Hm; simpl; [exact Hm |].
  inversion Hc; subst. apply IH; [assumption |].
  now apply marked_add_mono.
Qed.

Lemma marked_foldl_elem rs : forall S b,
  Forall canonical rs -> b ∈ rs ->
  marked (foldl add_booking S rs) (b_date b) (b_slot b).
Proof.
  induction rs as [|r rs IH]; intros S b Hc Hin; simpl.
  - inversion Hin.
  - inversion Hc; subst. apply elem_of_cons in Hin as [-> | Hin].
    + apply marked_foldl_mono; [assumption |]. now apply marked_add_same.
    + now apply IH.
Qed.

(** A record whose slot is already held changes nothing. *)
Lemma add_booking_absorbed S b :
  canonical b -> marked S (b_date b) (b_slot b) -> add_booking S b = S.
Proof.
  intros Hc Hm. rewrite add_booking_canonical by assumption.
  apply insert_id. destruct Hm as [-> | (a & -> & Ha)]; simpl;
    [reflexivity |]. now rewrite array_set_id.
Qed.

Lemma foldl_absorbed rs : forall S,
  Forall canonical rs ->
  (forall b, b ∈ rs -> marked S (b_date b) (b_slot b)) ->
  foldl add_booking S rs = S.
Proof.
  induction rs as [|r rs IH]; intros S Hc Hm; simpl; [reflexivity |].
  inversion Hc; subst.
  rewrite add_booking_absorbed; [| assumption | apply Hm; left].
  apply IH; [assumption |]. intros b Hb. apply Hm. now right.
Qed.

(** The entry of today, seeded fully booked, stays so. *)
Lemma today_stays_booked today rs :
  Forall canonical rs ->
  fold_bookings today rs !! format_key today = Some Booked.
Proof.
  intros Hc. rewrite fold_bookings_foldl.
  assert (H0 : initSchedule today !! format_key today = Some Booked)
    by apply lookup_singleton_eq.
  revert H0. generalize (initSchedule today).
  induction Hc as [|b rs Hb Hrs IH]; intros S HS; simpl; [exact HS |].
  apply IH. rewrite add_booking_canonical by assumption.
  destruct (decide (b_date b = format_key today)) as [E|Hne].
  - rewrite E, lookup_insert_eq, HS. reflexivity.
  - now rewrite lookup_insert_ne.
Qed.

Lemma build_nil today : build today [] = {[ format_key today := Booked ]}.
Proof. unfold build, fold_bookings, initSchedule. apply map_fmap_singleton. Qed.

Lemma build_lookup today rs k :
  build today rs !! k = collapse <$> (fold_bookings today rs !! k).
Proof. unfold build. apply lookup_fmap. Qed.

Lemma collapse_Booked_iff e :
  collapse e = Booked <->
  e = Booked
  \/ exists a, e = Slots a
               /\ Nat.eqb (length a) 0 = false /\ every_true a = true.
Proof.
  destruct e as [|a]; simpl.
  - split; auto.
  - destruct (Nat.eqb (length a) 0) eqn:El, (every_true a) eqn:Ee; simpl;
      split; try discriminate; eauto.
    + intros [?|(? & [= <-] & ? & ?)]; congruence.
    + intros [?|(? & [= <-] & ? & ?)]; congruence.
    + intros [?|(? & [= <-] & ? & ?)]; congruence.
Qed.

Lemma collapse_Slots e a :
  collapse e = Slots a ->
  e = Slots a /\ (Nat.eqb (length a) 0 = true \/ every_true a = false).
Proof.
  destruct e as [|a']; simpl; [discriminate |].
  destruct (Nat.eqb (length a') 0) eqn:El, (every_true a') eqn:Ee; simpl;
    intros [= <-]; auto.
Qed.

End Schedule.

(** ** The schedule builder *)

Local Open Scope list_scope.

(** C3: from an empty list the schedule is exactly the entry
    of today, fully booked; today cannot be picked; any other day can be
    picked exactly when it is not before the current day. *)
Theorem C3_empty_schedule (today : civil) :
  build today [] = {[ format_key today := Booked ]}
  /\ (forall now, isDaySelectable (build today []) now today = false)
  /\ (forall now day,
        wire_day today = true -> wire_day day = true -> day <> today ->
        isDaySelectable (build today []) now day
        = negb (days_from_civil day <? days_from_civil now)%Z).
Proof.
  pose proof (build_nil today) as E.
  split; [exact E |]. rewrite E. split.
  - intros now. unfold isDaySelectable, checkDisableDate.
    rewrite lookup_singleton_eq, bool_decide_eq_true_2 by reflexivity.
    reflexivity.
  - intros now day Ht Hd Hne. unfold isDaySelectable, checkDisableDate.
    rewrite lookup_singleton_ne.
    + rewrite bool_decide_eq_false_2 by discriminate. simpl. f_equal.
      unfold diff_days_ms.
      destruct (Z.ltb_spec (days_from_civil day) (days_from_civil now));
        [apply Z.ltb_lt | apply Z.ltb_ge]; lia.
    + intros Ek. apply Hne. symmetry. now apply format_key_inj.
Qed.

Lemma C3_empty_schedule_witness :
  isDaySelectable (build (Civil 2024 6 15) []) (Civil 2024 6 15) (Civil 2024 6 16)
  = true.
Proof.
  rewrite (proj2 (proj2 (C3_empty_schedule (Civil 2024 6 15)))
             (Civil 2024 6 15) (Civil 2024 6 16));
    [reflexivity | reflexivity | reflexivity | discriminate].
Defined.

(** Against C3 read for every day other than today: with an empty
    list, yesterday is such a day and cannot be picked. *)
Lemma C3_counterexample :
  ~ (forall today day : civil,
       day <> today -> isDaySelectable (build today []) today day = true).
Proof.
  intros H.
  specialize (H (Civil 2024 6 15) (Civil 2024 6 14) ltac:(discriminate)).
  vm_compute in H. discriminate.
Qed.

Lemma every_true_false_lookup (a : jsarray) :
  every_true a = false -> exists i, a !! i = Some (Some false).
Proof.
  induction a as [|o a IH]; simpl; [discriminate |].
  destruct o as [[]|]; simpl.
  - intros H. destruct (IH H) as [i Hi]. now exists (S i).
  - intros _. now exists 0.
  - intros H. destruct (IH H) as [i Hi]. now exists (S i).
Qed.

Lemma fold_bookings_ok (today : civil) (rs : list booking) :
  schedule_ok (fold_bookings today rs).
Proof.
  rewrite fold_bookings_foldl. apply schedule_ok_foldl, schedule_ok_init.
Qed.

(** After the collapse loop no array has its eight slots taken. *)
Lemma build_no_full_array (today : civil) (rs : list booking) k a :
  build today rs !! k = Some (Slots a) ->
  exists s, s < 8 /\ array_get a s = false.
Proof.
  rewrite build_lookup. intros H.
  destruct (fold_bookings today rs !! k) as [e|] eqn:E; [|discriminate].
  simpl in H. injection H as H.
  apply collapse_Slots in H as [-> Hc].
  pose proof (fold_bookings_ok today rs k a E) as Hok.
  destruct Hc as [Hc|Hc]; [now rewrite array_ok_nonempty in Hc |].
  apply every_true_false_lookup in Hc as [i Hi].
  destruct Hok as (_ & _ & Hhigh).
  destruct (decide (i < 8)) as [Hlt|Hge].
  - exists i. split; [exact Hlt |]. unfold array_get. now rewrite Hi.
  - exfalso. apply (Hhigh i); [lia | exact Hi].
Qed.

(** C4: when the records, all with canonical dates, hold a record of the
    day [d] for each of the slots 0 to 7, the entry of [d] in the built
    schedule is the fully booked mark and the day cannot be picked; and
    for any list of records, no entry left by the collapse loop is an
    array with its eight slots taken. *)
Theorem C4_collapse (today : civil) (rs : list booking) (d : string) :
  Forall canonical rs ->
  (forall s, s < 8 -> Booking d s ∈ rs) ->
  build today rs !! d = Some Booked
  /\ (forall now day,
        format_key day = d -> isDaySelectable (build today rs) now day = false)
  /\ (forall rs' k a,
        build today rs' !! k = Some (Slots a) ->
        exists s, s < 8 /\ array_get a s = false).
Proof.
  intros Hc Hall.
  assert (Hd : build today rs !! d = Some Booked).
  { assert (Hm : forall s, s < 8 -> marked (fold_bookings today rs) d s).
    { intros s Hs. rewrite fold_bookings_foldl.
      apply (marked_foldl_elem rs _ (Booking d s)); auto. }
    rewrite build_lookup.
    destruct (Hm 0 ltac:(lia)) as [E | (a & E & _)]; [now rewrite E |].
    rewrite E. simpl. f_equal.
    pose proof (fold_bookings_ok today rs d a E) as Hok.
    rewrite (array_ok_nonempty a Hok). simpl.
    replace (every_true a) with true; [reflexivity |].
    symmetry. apply every_true_slots; [exact Hok |].
    intros i Hi. destruct (Hm i Hi) as [E' | (a' & E' & Ha')];
      rewrite E in E'; [discriminate |]. now injection E' as ->. }
  split; [exact Hd |]. split.
  - intros now day <-. unfold isDaySelectable, checkDisableDate.
    rewrite Hd, bool_decide_eq_true_2 by reflexivity. reflexivity.
  - intros rs' k a. apply build_no_full_array.
Qed.

Lemma C4_collapse_witness :
  build (Civil 2024 6 15)
    (map (Booking "2024-16-06") [3; 1; 0; 2; 7; 6; 5; 4]) !! "2024-16-06"
  = Some Booked.
Proof.
  refine (proj1 (C4_collapse (Civil 2024 6 15)
                   (map (Booking "2024-16-06") [3; 1; 0; 2; 7; 6; 5; 4])
                   "2024-16-06" _ _)).
  - repeat constructor.
  - intros s Hs.
    do 8 (destruct s as [|s]; [simpl; rewrite !elem_of_cons; tauto |]). lia.
Defined.

(** C5: on records with canonical dates, feeding the list twice builds
    the same schedule as feeding it once, and a second copy of a record
    anywhere after the first changes nothing. *)
Theorem C5_build_idempotent (today : civil) (rs : list booking) :
  Forall canonical rs ->
  build today (rs ++ rs) = build today rs
  /\ (forall b r1 r2 r3,
        rs = r1 ++ b :: r2 ++ r3 ->
        build today (r1 ++ b :: r2 ++ b :: r3) = build today rs).
Proof.
  intros Hc. split.
  - unfold build. rewrite !fold_bookings_foldl, foldl_app. f_equal.
    apply foldl_absorbed; [exact Hc |].
    intros b Hb. now apply marked_foldl_elem.
  - intros b r1 r2 r3 ->. unfold build. rewrite !fold_bookings_foldl.
    f_equal.
    replace (r1 ++ b :: r2 ++ b :: r3) with ((r1 ++ b :: r2) ++ b :: r3)
      by (now rewrite <- app_assoc).
    replace (r1 ++ b :: r2 ++ r3) with ((r1 ++ b :: r2) ++ r3)
      by (now rewrite <- app_assoc).
    rewrite !(foldl_app _ (r1 ++ b :: r2)). simpl. f_equal.
    rewrite app_comm_cons, app_assoc in Hc.
    apply Forall_app in Hc as [Hc1 _].
    apply add_booking_absorbed.
    + apply Forall_app in Hc1 as [_ Hc1]. now inversion Hc1.
    + apply marked_foldl_elem; [exact Hc1 |].
      apply elem_of_app. right. left.
Qed.

Lemma C5_build_idempotent_witness :
  build (Civil 2024 6 15)
    ([Booking "2024-16-06" 2; Booking "2024-17-06" 0;
      Booking "2024-16-06" 9; Booking "2024-15-06" 4]
     ++ [Booking "2024-16-06" 2; Booking "2024-17-06" 0;
         Booking "2024-16-06" 9; Booking "2024-15-06" 4])
  = build (Civil 2024 6 15)
      [Booking "2024-16-06" 2; Booking "2024-17-06" 0;
       Booking "2024-16-06" 9; Booking "2024-15-06" 4].
Proof.
  refine (proj1 (C5_build_idempotent (Civil 2024 6 15) _ _)).
  repeat constructor.
Defined.

Lemma booked_collapse_add (S : gmap string entry) (r : booking) (k : string) :
  canonical r ->
  (collapse <$> S) !! k = Some Booked ->
  (collapse <$> add_booking S r) !! k = Some Booked.
Proof.
  intros Hc. rewrite !lookup_fmap, add_booking_canonical by assumption.
  destruct (decide (b_date r = k)) as [<-|Hne];
    [|now rewrite lookup_insert_ne].
  rewrite lookup_insert_eq.
  destruct (S !! b_date r) as [e|] eqn:E; simpl; [|discriminate].
  intros [= H]. f_equal.
  apply collapse_Booked_iff in H as [-> | (a & -> & Hl & He)];
    [reflexivity |].
  simpl. rewrite every_true_set by assumption.
  replace (Nat.eqb (length (array_set a (b_slot r) true)) 0) with false;
    [reflexivity |].
  symmetry. apply Nat.eqb_neq. apply Nat.eqb_neq in Hl.
  pose proof (array_set_length a (b_slot r) true). lia.
Qed.

Lemma marked_collapse (S : gmap string entry) (d : string) (s : nat) :
  marked S d s -> marked (collapse <$> S) d s.
Proof.
  unfold marked. rewrite lookup_fmap.
  intros [-> | (a & -> & Ha)]; simpl; [now left |].
  destruct (negb (Nat.eqb (length a) 0) && every_true a); [now left |].
  right. eauto.
Qed.

Lemma marked_collapse_add (S : gmap string entry) (r : booking) d s :
  canonical r ->
  marked (collapse <$> S) d s -> marked (collapse <$> add_booking S r) d s.
Proof.
  intros Hc [Hb | (a & Ha & Hs)].
  - left. now apply booked_collapse_add.
  - rewrite lookup_fmap in Ha.
    destruct (S !! d) as [e|] eqn:E; [|discriminate].
    simpl in Ha. injection Ha as Ha.
    apply collapse_Slots in Ha as [-> _].
    apply marked_collapse, marked_add_mono; [exact Hc |].
    right. eauto.
Qed.

(** C10: appending a record with a canonical date to any list keeps
    every slot that the built schedule held as taken, and every day that
    could not be picked; a slot that the slot list found taken is still
    found taken, unless its day has become fully booked; and when all
    records have canonical dates the entry of today stays the fully
    booked mark. *)
Theorem C10_build_monotone (today : civil) (rs : list booking) (r : booking) :
  canonical r ->
  (forall d s,
      marked (build today rs) d s -> marked (build today (rs ++ [r])) d s)
  /\ (forall now day,
        isDaySelectable (build today rs) now day = false ->
        isDaySelectable (build today (rs ++ [r])) now day = false)
  /\ (forall d s,
        scheduleDisabled (build today rs) d s = true ->
        scheduleDisabled (build today (rs ++ [r])) d s = true
        \/ build today (rs ++ [r]) !! d = Some Booked)
  /\ (Forall canonical rs ->
      build today (rs ++ [r]) !! format_key today = Some Booked).
Proof.
  intros Hc.
  assert (E : build today (rs ++ [r])
              = collapse <$> add_booking (fold_bookings today rs) r).
  { unfold build. now rewrite !fold_bookings_foldl, foldl_snoc. }
  rewrite E. split; [|split; [|split]].
  - intros d s. now apply marked_collapse_add.
  - intros now day. unfold isDaySelectable, checkDisableDate.
    rewrite !negb_false_iff, !orb_true_iff, !bool_decide_eq_true.
    intros [H|H]; [left | now right].
    now apply booked_collapse_add.
  - intros d s H.
    assert (Hm : marked (build today rs) d s).
    { unfold scheduleDisabled in H. unfold marked.
      destruct (build today rs !! d) as [[|a]|]; try discriminate.
      right. eauto. }
    apply (marked_collapse_add _ r) in Hm; [|exact Hc].
    destruct Hm as [Hb | (a & Ha & Hs)]; [now right | left].
    unfold scheduleDisabled. now rewrite Ha.
  - intros Hrs. rewrite <- E, build_lookup.
    rewrite today_stays_booked; [reflexivity |].
    apply Forall_app. split; [exact Hrs | now constructor].
Qed.

Lemma C10_build_monotone_witness :
  marked
    (build (Civil 2024 6 15)
       ([Booking "2024-16-06" 2; Booking "2024-17-06" 0]
        ++ [Booking "2024-15-06" 3]))
    "2024-16-06" 2.
Proof.
  refine (proj1 (C10_build_monotone (Civil 2024 6 15)
                   [Booking "2024-16-06" 2; Booking "2024-17-06" 0]
                   (Booking "2024-15-06" 3) _) "2024-16-06" 2 _).
  - reflexivity.
  - right. eexists. split; vm_compute; reflexivity.
Defined.

(** ** The slot query *)

Lemma meridiemDisabled_matches (now : moment) (m slot : nat) :
  slot < 8 -> meridiemDisabled now m slot = negb (meridiem_matches m slot).
Proof.
  intros Hs. unfold meridiemDisabled, meridiem_matches, slot_time, format_a.
  do 8 (destruct slot as [|slot]; [destruct m; reflexivity |]). lia.
Qed.

(** C1: for a slot index below 8 the slot can be picked
    exactly when its meridiem matches the filter and the query does not
    find it taken; the query finds it taken exactly when the entry of
    the day is an array with [true] at the slot.  On a missing entry and
    on the fully booked mark it finds no slot taken; a fully booked day
    is refused by the day query. *)
Theorem C1_slot_query
    (sch : gmap string entry) (now : moment) (date : option civil)
    (m slot : nat) :
  slot < 8 ->
  let key := format_key (default (m_day now) date) in
  isSlotSelectable sch now date m slot
  = meridiem_matches m slot && negb (scheduleDisabled sch key slot)
  /\ (sch !! key = None -> scheduleDisabled sch key slot = false)
  /\ (forall a, sch !! key = Some (Slots a) ->
        scheduleDisabled sch key slot = array_get a slot)
  /\ (sch !! key = Some Booked ->
      scheduleDisabled sch key slot = false
      /\ forall today day,
           format_key day = key -> isDaySelectable sch today day = false).
Proof.
  intros Hs key. split; [|split; [|split]].
  - unfold isSlotSelectable, slot_radio. simpl r_disabled. fold key.
    rewrite meridiemDisabled_matches by assumption.
    destruct (meridiem_matches m slot), (scheduleDisabled sch key slot);
      reflexivity.
  - unfold scheduleDisabled. now intros ->.
  - unfold scheduleDisabled. now intros a ->.
  - intros E. unfold scheduleDisabled. rewrite E. split; [reflexivity |].
    intros today day Hk. unfold isDaySelectable, checkDisableDate.
    rewrite Hk, E, bool_decide_eq_true_2 by reflexivity. reflexivity.
Qed.

Lemma C1_slot_query_witness :
  isSlotSelectable {[ "2024-16-06" := Slots (replicate 8 (Some true)) ]}
    (Moment (Civil 2024 6 15) 14 30) (Some (Civil 2024 6 16)) 0 1
  = false.
Proof.
  rewrite (proj1 (C1_slot_query
                    {[ "2024-16-06" := Slots (replicate 8 (Some true)) ]}
                    (Moment (Civil 2024 6 15) 14 30) (Some (Civil 2024 6 16))
                    0 1 ltac:(lia))).
  reflexivity.
Defined.

(** Against C1 read with the fully booked mark counted as taken: on a
    day marked fully booked the query of the slot list finds no slot
    taken, so a morning slot can be picked under the morning filter,
    while the specified query refuses it. *)
Lemma C1_counterexample :
  ~ (forall (sch : gmap string entry) (now : moment) (date : civil)
            (m slot : nat),
        slot < 8 ->
        isSlotSelectable sch now (Some date) m slot
        = spec_isSlotSelectable sch (format_key date) m slot).
Proof.
  intros H.
  specialize (H {[ "2024-16-06" := Booked ]} (Moment (Civil 2024 6 15) 14 30)
                (Civil 2024 6 16) 0 0 ltac:(lia)).
  vm_compute in H. discriminate.
Qed.

(** ** The end-to-end scenario *)

Lemma scenario_request (phoneInput : string) :
  phone_regex_test phoneInput = true ->
  handleSubmit scenario_today (run (scenario phoneInput))
  = Appointment "2024-16-06" (Some 2) "Jane Doe"
      (Some "jane@doe.com") (Some phoneInput)
    /\ contactFormFilled (run (scenario phoneInput)) = true
    /\ schedule (run (scenario phoneInput)) = Some (build scenario_today []).
Proof.
  intros Hp.
  assert (He : email_regex_test "jane@doe.com" = true)
    by (vm_compute; reflexivity).
  assert (Hne : negb (String.eqb phoneInput "") = true).
  { destruct phoneInput; [vm_compute in Hp; discriminate | reflexivity]. }
  unfold run, scenario. cbn [foldl step].
  unfold validatePhone, validateEmail. rewrite Hp, He.
  unfold handleSubmit, contactFormFilled. cbn -[build String.eqb].
  rewrite Hne. repeat split; reflexivity.
Qed.

(** C2: in the scenario the day and the slot can be picked and the form
    is complete; the request carries the date in the order year, day,
    month, the slot 2, the two names joined by a space, the email and
    the phone as typed; the handler then sends the SMS whose text names
    11:00 am and Sunday June 16th, 2024, and writes to the store the
    record with the date [2024-16-06], the slot 2, the name, the email
    and the ten digits of the phone, for every accepted way of typing
    that number. *)
Theorem C2_end_to_end (cfg : config) (w : world) (phoneInput : string) :
  phone_regex_test phoneInput = true ->
  strip_non_digits phoneInput = "5551234567" ->
  let st := run (scenario phoneInput) in
  let request := handleSubmit scenario_today st in
  let body :=
    "Jane Doe, this message is to confirm your appointment at 11:00 am on Sunday June 16th, 2024." in
  let message := Sms "+15551234567" (twilio_number cfg) body in
  let object :=
    CosmicObject "Jane Doe" "appointments" (bucket_write_key cfg)
      [ Metafield "date" "text" (JStr "2024-16-06");
        Metafield "slot" "text" (JNum 2);
        Metafield "email" "text" (JStr "jane@doe.com");
        Metafield "phone" "text" (JStr "5551234567") ] in
  schedule st = Some {[ "2024-15-06" := Booked ]}
  /\ isDaySelectable (build scenario_today []) scenario_today scenario_day = true
  /\ (forall now,
        isSlotSelectable (build scenario_today []) now (Some scenario_day) 0 2
        = true)
  /\ contactFormFilled st = true
  /\ request = Appointment "2024-16-06" (Some 2) "Jane Doe"
                 (Some "jane@doe.com") (Some phoneInput)
  /\ post_appointment cfg w request
     = Ran [ SendSms message;
             PostStore (store_url cfg) object;
             ConsoleLog (twilio_create w message);
             ResJson (if cosmic_add w (store_url cfg) object
                      then "succes" else "error ") ]
  /\ contains "11:00 am" body = true
  /\ contains "Sunday June 16th, 2024" body = true.
Proof.
  intros Hp Hd st request body message object.
  destruct (scenario_request phoneInput Hp) as (Hreq & Hfilled & Hsch).
  split; [|split; [|split; [|split; [|split; [|split; [|split]]]]]].
  - unfold st. rewrite Hsch, build_nil. reflexivity.
  - vm_compute. reflexivity.
  - intros now. unfold isSlotSelectable, slot_radio. simpl r_disabled.
    rewrite meridiemDisabled_matches by lia. vm_compute. reflexivity.
  - exact Hfilled.
  - exact Hreq.
  - unfold request, st. rewrite Hreq.
    cbv beta iota delta [post_appointment ap_phone]. rewrite Hd.
    reflexivity.
  - vm_compute. reflexivity.
  - vm_compute. reflexivity.
Qed.

Lemma C2_end_to_end_witness :
  handleSubmit scenario_today (run (scenario "(555) 123-4567"))
  = Appointment "2024-16-06" (Some 2) "Jane Doe"
      (Some "jane@doe.com") (Some "(555) 123-4567").
Proof.
  refine (proj1 (proj2 (proj2 (proj2 (proj2
            (C2_end_to_end (Config "+15005550006" "bucket" "key")
               (World (fun _ => None) (fun _ _ => true))
               "(555) 123-4567" _ _)))))).
  - vm_compute. reflexivity.
  - vm_compute. reflexivity.
Defined.

(** ** The handler: the SMS and the store write *)

(** C8: two runs of the handler that differ only in what Twilio answers
    post the same object to the store and answer the request alike, and
    the client ends on the same event; when the phone is present the
    object is posted whatever Twilio answers, and the answer of the
    request is chosen by the store write alone. *)
Theorem C8_send_independent (cfg : config) (w1 w2 : world) (a : appointment) :
  (forall url o, cosmic_add w1 url o = cosmic_add w2 url o) ->
  store_side (post_appointment cfg w1 a) = store_side (post_appointment cfg w2 a)
  /\ client_event (post_appointment cfg w1 a)
     = client_event (post_appointment cfg w2 a)
  /\ (forall raw, ap_phone a = Some raw ->
        exists m o,
          store_side (post_appointment cfg w1 a)
          = Some [ PostStore (store_url cfg) o;
                   ResJson (if cosmic_add w1 (store_url cfg) o
                            then "succes" else "error ") ]
          /\ In (ConsoleLog (twilio_create w1 m))
                match post_appointment cfg w1 a with
                | Ran t => t
                | Threw => []
                end).
Proof.
  intros Hs. unfold post_appointment.
  destruct (ap_phone a) as [raw|]; simpl.
  - split; [now rewrite Hs |]. split; [reflexivity |].
    intros ? _. do 2 eexists. split; [reflexivity |].
    right. right. left. reflexivity.
  - split; [reflexivity |]. split; [reflexivity |]. discriminate.
Qed.

Lemma C8_send_independent_witness :
  store_side
    (post_appointment (Config "+15005550006" "bucket" "key")
       (World (fun _ => Some "unreachable number") (fun _ _ => true))
       (Appointment "2024-16-06" (Some 2) "Jane Doe" (Some "jane@doe.com")
          (Some "(555) 123-4567")))
  = store_side
      (post_appointment (Config "+15005550006" "bucket" "key")
         (World (fun _ => None) (fun _ _ => true))
         (Appointment "2024-16-06" (Some 2) "Jane Doe" (Some "jane@doe.com")
            (Some "(555) 123-4567"))).
Proof.
  refine (proj1 (C8_send_independent _ _ _ _ _)).
  intros url o. reflexivity.
Defined.

(** ** The contact fields *)

Lemma step_email (s : state) (e : event) :
  email (step s e)
  = match e with
    | EvEmail v => if email_regex_test v then Some v else email s
    | _ => email s
    end.
Proof.
  destruct e; try reflexivity.
  - unfold step, handleSetAppointmentDate, handleNextStep.
    case_decide; reflexivity.
  - unfold step, handleSetAppointmentSlot, handleNextStep.
    case_decide; reflexivity.
  - unfold step, validateEmail. destruct (email_regex_test v); reflexivity.
  - unfold step, validatePhone. destruct (phone_regex_test v); reflexivity.
Qed.

Lemma step_phone (s : state) (e : event) :
  phone (step s e)
  = match e with
    | EvPhone v => if phone_regex_test v then Some v else phone s
    | _ => phone s
    end.
Proof.
  destruct e; try reflexivity.
  - unfold step, handleSetAppointmentDate, handleNextStep.
    case_decide; reflexivity.
  - unfold step, handleSetAppointmentSlot, handleNextStep.
    case_decide; reflexivity.
  - unfold step, validateEmail. destruct (email_regex_test v); reflexivity.
  - unfold step, validatePhone. destruct (phone_regex_test v); reflexivity.
Qed.

Lemma run_email (events : list event) :
  email (run events) = last_accepted_email events.
Proof.
  unfold run, last_accepted_email.
  induction events as [|e events IH] using rev_ind; [reflexivity |].
  rewrite !foldl_snoc, step_email, IH. reflexivity.
Qed.

Lemma run_phone (events : list event) :
  phone (run events) = last_accepted_phone events.
Proof.
  unfold run, last_accepted_phone.
  induction events as [|e events IH] using rev_ind; [reflexivity |].
  rewrite !foldl_snoc, step_phone, IH. reflexivity.
Qed.

Lemma last_accepted_email_ok (events : list event) (v : string) :
  last_accepted_email events = Some v -> email_regex_test v = true.
Proof.
  unfold last_accepted_email.
  induction events as [|e events IH] using rev_ind; [discriminate |].
  rewrite foldl_snoc. destruct e; auto.
  destruct (email_regex_test v0) eqn:E; [congruence | auto].
Qed.

Lemma last_accepted_phone_ok (events : list event) (v : string) :
  last_accepted_phone events = Some v -> phone_regex_test v = true.
Proof.
  unfold last_accepted_phone.
  induction events as [|e events IH] using rev_ind; [discriminate |].
  rewrite foldl_snoc. destruct e; auto.
  destruct (phone_regex_test v0) eqn:E; [congruence | auto].
Qed.

(** C9: after any sequence of events, a stored email passes the email
    pattern and a stored phone passes the phone pattern; each is the
    most recent input that its pattern accepted, and that is what the
    request of a submission carries; an input that the pattern rejects
    leaves the stored value and only clears the flag, an accepted one
    replaces it and sets the flag. *)
Theorem C9_contact_fields (events : list event) :
  let st := run events in
  (forall v, email st = Some v -> email_regex_test v = true)
  /\ (forall v, phone st = Some v -> phone_regex_test v = true)
  /\ email st = last_accepted_email events
  /\ phone st = last_accepted_phone events
  /\ (forall now,
        ap_email (handleSubmit now st) = last_accepted_email events
        /\ ap_phone (handleSubmit now st) = last_accepted_phone events)
  /\ (forall v,
        email (validateEmail v st)
        = (if email_regex_test v then Some v else email st)
        /\ validEmail (validateEmail v st) = email_regex_test v
        /\ phone (validateEmail v st) = phone st)
  /\ (forall v,
        phone (validatePhone v st)
        = (if phone_regex_test v then Some v else phone st)
        /\ validPhone (validatePhone v st) = phone_regex_test v
        /\ email (validatePhone v st) = email st).
Proof.
  intros st. unfold st.
  split; [|split; [|split; [|split; [|split; [|split]]]]].
  - intros v. rewrite run_email. apply last_accepted_email_ok.
  - intros v. rewrite run_phone. apply last_accepted_phone_ok.
  - apply run_email.
  - apply run_phone.
  - intros now. simpl. split; [apply run_email | apply run_phone].
  - intros v. unfold validateEmail.
    destruct (email_regex_test v); repeat split; reflexivity.
  - intros v. unfold validatePhone.
    destruct (phone_regex_test v); repeat split; reflexivity.
Qed.

Lemma C9_contact_fields_witness :
  email (run [EvEmail "jane@doe.com"; EvEmail "jane@doe"; EvPhone "12345"])
  = Some "jane@doe.com"
  /\ email_regex_test "jane@doe.com" = true.
Proof.
  pose proof (C9_contact_fields
                [EvEmail "jane@doe.com"; EvEmail "jane@doe"; EvPhone "12345"])
    as (Hok & _ & He & _).
  split; [rewrite He; vm_compute; reflexivity |].
  apply Hok. rewrite He. vm_compute. reflexivity.
Defined.

Lemma C6_phone_validator_witness :
  String.length (strip_non_digits "1 (555) 123-4567") = 11
  /\ starts_with "1" (strip_non_digits "1 (555) 123-4567") = true.
Proof.
  destruct (proj2 (proj2 (proj2 (proj2 (proj2 (proj2 (proj2
              C6_phone_validator))))))
              "1 (555) 123-4567" ltac:(vm_compute; reflexivity))
    as [H | H]; [vm_compute in H; discriminate | exact H].
Defined.

Lemma C7_email_validator_witness :
  exists local pre tld,
    "jane@doe.com" = local +:+ "@" +:+ pre +:+ "." +:+ tld
    /\ local <> "" /\ pre <> ""
    /\ 2 <= String.length tld /\ all_chars is_atom tld = true.
Proof.
  apply (proj1 (proj2 (proj2 (proj2 C7_email_validator)))).
  vm_compute. reflexivity.
Defined.

(** ** Remarks on the limits of the statements *)

(** The condition on the dates is needed: a record that spells a day
    otherwise is not found by the presence test of the reducer, which
    reads the date as fetched, and starts the array of the day afresh.
    Eight records had filled the day; the ninth leaves one slot. *)
Example respelled_date_restarts_day :
  build (Civil 2024 6 15)
    (map (Booking "2024-16-06") [0; 1; 2; 3; 4; 5; 6; 7]
     ++ [Booking "2024-16-6" 0]) !! "2024-16-06"
  = Some (Slots [Some true; Some false; Some false; Some false;
                 Some false; Some false; Some false; Some false]).
Proof. vm_compute. reflexivity. Qed.

(** The same on today: the seeded mark is replaced by an array. *)
Example respelled_today_restarts_day :
  build (Civil 2024 6 15) [Booking "2024-15-6" 0] !! "2024-15-06"
  = Some (Slots [Some true; Some false; Some false; Some false;
                 Some false; Some false; Some false; Some false]).
Proof. vm_compute. reflexivity. Qed.

(** Once the eighth record collapses a day, the slot list no longer
    finds its slots taken; the day picker refuses the day. *)
Example collapsed_day_slot_list :
  scheduleDisabled
    (build (Civil 2024 6 15) (map (Booking "2024-16-06") [0; 1; 2; 3; 4; 5; 6]))
    "2024-16-06" 0 = true
  /\ scheduleDisabled
       (build (Civil 2024 6 15)
          (map (Booking "2024-16-06") [0; 1; 2; 3; 4; 5; 6] ++ [Booking "2024-16-06" 7]))
       "2024-16-06" 0 = false
  /\ checkDisableDate
       (build (Civil 2024 6 15)
          (map (Booking "2024-16-06") [0; 1; 2; 3; 4; 5; 6] ++ [Booking "2024-16-06" 7]))
       (Civil 2024 6 15) (Civil 2024 6 16) = true.
Proof. vm_compute. repeat split; reflexivity. Qed.

(** A slot index past the seven extends the array and leaves a hole,
    which the collapse loop skips. *)
Example slot_past_the_day :
  build (Civil 2024 6 15) [Booking "2024-16-06" 9] !! "2024-16-06"
  = Some (Slots [Some false; Some false; Some false; Some false;
                 Some false; Some false; Some false; Some false;
                 None; Some true]).
Proof. vm_compute. reflexivity. Qed.

(** * Further properties *)

(** ** The calendar arithmetic *)

Section Calendar.

Local Open Scope Z_scope.

Lemma is_leap_spec (y : Z) :
  is_leap y = true <-> (y mod 4 = 0 /\ y mod 100 <> 0) \/ y mod 400 = 0.
Proof.
  unfold is_leap.
  rewrite orb_true_iff, andb_true_iff, negb_true_iff, !Z.eqb_eq, Z.eqb_neq.
  reflexivity.
Qed.

Lemma valid_civil_spec (y m d : Z) :
  valid_civil (Civil y m d) = true ->
  1 <= m <= 12 /\ 1 <= d
  /\ (m = 2 -> d <= 28 \/ (d = 29 /\ ((y mod 4 = 0 /\ y mod 100 <> 0) \/ y mod 400 = 0)))
  /\ (m = 4 \/ m = 6 \/ m = 9 \/ m = 11 -> d <= 30)
  /\ d <= 31.
Proof.
  unfold valid_civil. cbn [year month day]. intros Hv.
  apply andb_true_iff in Hv as [Hv H4]. apply andb_true_iff in Hv as [Hv H3].
  apply andb_true_iff in Hv as [H1 H2].
  apply Z.leb_le in H1, H2, H3, H4.
  unfold days_in_month in H4.
  destruct (m =? 2) eqn:E2.
  - apply Z.eqb_eq in E2. destruct (is_leap y) eqn:El.
    + apply is_leap_spec in El. repeat split; try lia.
    + repeat split; try lia.
  - apply Z.eqb_neq in E2.
    destruct ((m =? 4) || (m =? 6) || (m =? 9) || (m =? 11)) eqn:E.
    + repeat split; try lia.
    + apply orb_false_iff in E as [E E11]. apply orb_false_iff in E as [E E9].
      apply orb_false_iff in E as [E4 E6].
      apply Z.eqb_neq in E4, E6, E9, E11. repeat split; try lia.
Qed.

(** Turning a day of the calendar into its number and back gives the
    day. *)
Lemma civil_round_trip (c : civil) :
  valid_civil c = true -> civil_from_days (days_from_civil c) = c.
Proof.
  destruct c as [y m d]. intros Hv.
  apply valid_civil_spec in Hv as (Hm & Hd1 & Hfeb & H30 & H31).
  unfold days_from_civil, civil_from_days. cbn [year month day].
  set (ya := if m <=? 2 then y - 1 else y).
  set (era := ya / 400). set (yoe := ya - era * 400).
  assert (Hyoe : 0 <= yoe < 400)
    by (unfold yoe, era; pose proof (Z.div_mod ya 400);
        pose proof (Z.mod_pos_bound ya 400); lia).
  assert (Hya : ya = yoe + era * 400) by (unfold yoe; lia).
  set (mp := (m + 9) mod 12).
  set (doy := (153 * mp + 2) / 5 + d - 1).
  set (doe := yoe * 365 + yoe / 4 - yoe / 100 + doy).
  assert (Hcase : (m <= 2 /\ mp = m + 9 /\ y = ya + 1) \/ (3 <= m /\ mp = m - 3 /\ y = ya)).
  { unfold mp, ya. destruct (Z.leb_spec m 2); [left | right];
      (repeat split; try lia); Z.div_mod_to_equations; lia. }
  assert (Hdoy : 0 <= doy <= 365 /\ (doy = 365 -> (yoe + 1) mod 4 = 0 /\ ((yoe + 1) mod 100 <> 0 \/ yoe = 399))
                 /\ (5 * doy + 2) / 153 = mp /\ (153 * mp + 2) / 5 + d - 1 = doy).
  { unfold doy. clearbody mp. clear doe doy. Z.div_mod_to_equations; lia. }
  destruct Hdoy as (Hdoy & Hleap & Hmp & Hd).
  assert (Hdoe : 0 <= doe < 146097
                 /\ (doe - doe / 1460 + doe / 36524 - doe / 146096) / 365 = yoe
                 /\ doe - (365 * yoe + yoe / 4 - yoe / 100) = doy).
  { unfold doe. clearbody doy yoe mp. clear Hcase Hfeb H30 H31 Hmp Hd.
    Z.div_mod_to_equations; lia. }
  destruct Hdoe as (Hdoe & Hy & Hdoy').
  replace (era * 146097 + doe - 719468 + 719468) with (doe + era * 146097) by lia.
  rewrite Z.div_add by lia. rewrite (Z.div_small doe) by lia.
  replace (doe + era * 146097 - (0 + era) * 146097) with doe by lia.
  rewrite Hy, Hdoy', Hmp.
  replace (doy - (153 * mp + 2) / 5 + 1) with d by lia.
  destruct Hcase as [(Hm2 & Emp & Ey) | (Hm3 & Emp & Ey)].
  - replace (mp <? 10) with false by (symmetry; apply Z.ltb_ge; lia).
    replace (mp - 9) with m by lia.
    replace (m <=? 2) with true by (symmetry; apply Z.leb_le; lia).
    f_equal. lia.
  - replace (mp <? 10) with true by (symmetry; apply Z.ltb_lt; lia).
    replace (mp + 3) with m by lia.
    replace (m <=? 2) with false by (symmetry; apply Z.leb_gt; lia).
    f_equal. lia.
Qed.

(** A slot that starts before midnight falls on the day of the
    moment. *)
Lemma add_hours_same_day (c : civil) (h mi n : Z) :
  valid_civil c = true -> 0 <= h + n < 24 ->
  add_hours n (Moment c h mi) = Moment c (h + n) mi.
Proof.
  intros Hv Hh. unfold add_hours. simpl.
  rewrite Z.div_small, Z.mod_small by lia.
  now rewrite Z.add_0_r, civil_round_trip.
Qed.

End Calendar.

(** ** What the built schedule holds *)

Section Contents.

Implicit Types (S : gmap string entry) (b : booking) (rs : list booking)
  (a : jsarray).

Lemma array_set_lookup a i v k :
  array_set a i v !! k
  = if decide (k = i) then Some (Some v)
    else if decide (k < length a) then a !! k
    else if decide (k < i) then Some None
    else None.
Proof.
  case_decide as Hki; [subst; apply array_set_lookup_eq |].
  case_decide as Hlt; [now apply array_set_lookup_old |].
  unfold array_set. case_decide as Hi.
  - rewrite list_lookup_insert_ne by auto.
    rewrite decide_False by lia. apply lookup_ge_None. lia.
  - rewrite lookup_app_r by lia. case_decide as Hk.
    + rewrite lookup_app_l by (rewrite length_replicate; lia).
      apply lookup_replicate. split; [reflexivity | lia].
    + apply lookup_ge_None.
      rewrite length_app, length_replicate. simpl. lia.
Qed.

Lemma array_set_length_eq a i v :
  length (array_set a i v) = Nat.max (length a) (Datatypes.S i).
Proof.
  unfold array_set. case_decide.
  - rewrite length_insert. lia.
  - rewrite !length_app, length_replicate. simpl. lia.
Qed.

(** Two writes commute. *)
Lemma array_set_comm a i j :
  array_set (array_set a i true) j true
  = array_set (array_set a j true) i true.
Proof.
  apply list_eq. intros k.
  rewrite !array_set_lookup, !array_set_length_eq.
  repeat case_decide; try reflexivity; try lia;
    try (symmetry; apply lookup_ge_None; lia);
    try (apply lookup_ge_None; lia).
Qed.

Lemma array_get_set_inv a i j :
  array_get (array_set a i true) j = true ->
  j = i \/ array_get a j = true.
Proof.
  unfold array_get. rewrite array_set_lookup.
  case_decide; [now left |]. right.
  case_decide; [assumption |]. case_decide; discriminate.
Qed.

Lemma array_get_fresh j : array_get fresh_slots j = false.
Proof.
  unfold array_get. destruct (fresh_slots !! j) as [o|] eqn:E; [|reflexivity].
  apply list_elem_of_lookup_2, elem_of_replicate in E as [-> _]. reflexivity.
Qed.

Lemma mark_comm (o : option entry) i j :
  mark i (Some (mark j o)) = mark j (Some (mark i o)).
Proof.
  destruct o as [[|a]|]; simpl; try reflexivity; f_equal; apply array_set_comm.
Qed.

(** The reducer does not depend on the order of two canonical records. *)
Lemma add_booking_comm S b1 b2 :
  canonical b1 -> canonical b2 ->
  add_booking (add_booking S b1) b2 = add_booking (add_booking S b2) b1.
Proof.
  intros H1 H2. rewrite !add_booking_canonical by assumption.
  destruct (decide (b_date b1 = b_date b2)) as [E|Hne].
  - rewrite E, !lookup_insert_eq, !insert_insert_eq. f_equal. apply mark_comm.
  - rewrite !(lookup_insert_ne _ (b_date b1) (b_date b2)) by assumption.
    rewrite !(lookup_insert_ne _ (b_date b2) (b_date b1)) by auto.
    now apply insert_insert_ne.
Qed.

Lemma foldl_add_booking_perm rs rs' :
  rs ≡ₚ rs' -> Forall canonical rs ->
  forall S, foldl add_booking S rs = foldl add_booking S rs'.
Proof.
  induction 1 as [|b l l' Hp IH|b1 b2 l|l1 l2 l3 Hp1 IH1 Hp2 IH2];
    intros Hc S.
  - reflexivity.
  - apply Forall_cons in Hc as [_ Hc]. simpl. now apply IH.
  - apply Forall_cons in Hc as [H1 Hc]. apply Forall_cons in Hc as [H2 _].
    simpl. now rewrite add_booking_comm.
  - rewrite IH1 by assumption. apply IH2. now rewrite <- Hp1.
Qed.

(** A slot held after a canonical record was held before it or is the
    slot of the record. *)
Lemma marked_add_inv S b d s :
  canonical b -> marked (add_booking S b) d s ->
  marked S d s \/ (b_date b = d /\ b_slot b = s).
Proof.
  intros Hc. rewrite add_booking_canonical by assumption. unfold marked.
  destruct (decide (b_date b = d)) as [<-|Hne];
    [|rewrite lookup_insert_ne by assumption; auto].
  rewrite lookup_insert_eq.
  destruct (S !! b_date b) as [[|a]|]; simpl.
  - auto.
  - intros [[=] | (a' & [= <-] & Ha)].
    apply array_get_set_inv in Ha as [-> | Ha]; [now right |].
    left. right. eauto.
  - intros [[=] | (a' & [= <-] & Ha)].
    apply array_get_set_inv in Ha as [-> | Ha]; [now right |].
    now rewrite array_get_fresh in Ha.
Qed.

Lemma marked_foldl_inv rs : forall S d s,
  Forall canonical rs -> marked (foldl add_booking S rs) d s ->
  marked S d s \/ Booking d s ∈ rs.
Proof.
  induction rs as [|b rs IH]; intros S d s Hc Hm; [now left |].
  apply Forall_cons in Hc as [Hb Hc]. simpl in Hm.
  apply IH in Hm as [Hm | Hin]; [|right; now right | assumption].
  apply marked_add_inv in Hm as [Hm | [<- <-]]; [now left | | assumption].
  right. destruct b. left.
Qed.

Lemma marked_init today d s :
  marked (initSchedule today) d s <-> d = format_key today.
Proof.
  unfold marked, initSchedule. split.
  - intros [H | (a & H & _)]; apply lookup_singleton_Some in H as [<- H];
      [reflexivity | discriminate].
  - intros ->. left. apply lookup_singleton_eq.
Qed.

(** The slots held before the collapse loop are those of the records,
    and all the slots of today. *)
Lemma marked_fold_iff today rs d s :
  Forall canonical rs ->
  marked (fold_bookings today rs) d s
  <-> d = format_key today \/ Booking d s ∈ rs.
Proof.
  intros Hc. rewrite fold_bookings_foldl. split.
  - intros H. apply marked_foldl_inv in H as [H|H]; [|now right | assumption].
    left. exact (proj1 (marked_init today d s) H).
  - intros [-> | Hin].
    + apply marked_foldl_mono; [assumption |].
      exact (proj2 (marked_init today _ s) eq_refl).
    + now apply (marked_foldl_elem rs _ (Booking d s)).
Qed.

(** A key is in the schedule when it is today's or a record names it. *)
Lemma add_booking_dom S b k :
  canonical b ->
  is_Some (add_booking S b !! k) <-> is_Some (S !! k) \/ b_date b = k.
Proof.
  intros Hc. rewrite add_booking_canonical by assumption.
  rewrite lookup_insert_is_Some. destruct (decide (b_date b = k)); tauto.
Qed.

Lemma foldl_dom rs : forall S k,
  Forall canonical rs ->
  is_Some (foldl add_booking S rs !! k)
  <-> is_Some (S !! k) \/ exists s, Booking k s ∈ rs.
Proof.
  induction rs as [|b rs IH]; intros S k Hc; simpl.
  - split; [now left |]. intros [H | [s Hs]]; [exact H | inversion Hs].
  - apply Forall_cons in Hc as [Hb Hc].
    rewrite IH, add_booking_dom by assumption. split.
    + intros [[H | <-] | [s Hs]]; [now left | right | right].
      * exists (b_slot b). destruct b. left.
      * exists s. now right.
    + intros [H | [s Hs]]; [left; now left |].
      apply elem_of_cons in Hs as [<- | Hs]; [left; now right |].
      right. eauto.
Qed.

End Contents.

Section BuiltSchedule.

Implicit Types (rs : list booking).

Lemma fold_slots_not_today today rs d a :
  Forall canonical rs ->
  fold_bookings today rs !! d = Some (Slots a) -> d <> format_key today.
Proof.
  intros Hc E ->. rewrite today_stays_booked in E by assumption.
  discriminate.
Qed.

Lemma fold_slots_bit today rs d a s :
  Forall canonical rs ->
  fold_bookings today rs !! d = Some (Slots a) ->
  array_get a s = true <-> Booking d s ∈ rs.
Proof.
  intros Hc E. pose proof (fold_slots_not_today today rs d a Hc E) as Hne.
  pose proof (marked_fold_iff today rs d s Hc) as Hm. unfold marked in Hm.
  rewrite E in Hm. split.
  - intros Ha. destruct (proj1 Hm) as [?|?]; [right; eauto | contradiction | assumption].
  - intros Hin. destruct (proj2 Hm (or_intror Hin)) as [[=] | (a' & [= <-] & Ha)].
    exact Ha.
Qed.

Lemma fold_booked_today today rs d :
  Forall canonical rs ->
  fold_bookings today rs !! d = Some Booked -> d = format_key today.
Proof.
  intros Hc. rewrite fold_bookings_foldl.
  assert (H0 : forall k, initSchedule today !! k = Some Booked ->
                         k = format_key today).
  { intros k H. unfold initSchedule in H.
    apply lookup_singleton_Some in H as [<- _]. reflexivity. }
  revert H0. generalize (initSchedule today).
  induction Hc as [|b rs Hb Hrs IH]; intros S HS; simpl; [apply HS |].
  apply IH. intros k. rewrite add_booking_canonical by assumption.
  destruct (decide (b_date b = k)) as [<-|Hne].
  - rewrite lookup_insert_eq.
    destruct (S !! b_date b) as [[|a]|] eqn:E; simpl; try discriminate.
    intros _. now apply HS.
  - rewrite lookup_insert_ne by assumption. apply HS.
Qed.

(** The entry of a day is the fully booked mark exactly for today and
    for a day whose eight slots all have a record. *)
Lemma build_booked_iff today rs d :
  Forall canonical rs ->
  build today rs !! d = Some Booked
  <-> d = format_key today \/ (forall i, i < 8 -> Booking d i ∈ rs).
Proof.
  intros Hc. rewrite build_lookup. split.
  - destruct (fold_bookings today rs !! d) as [e|] eqn:E; [|discriminate].
    simpl. intros [= H].
    apply collapse_Booked_iff in H as [-> | (a & -> & _ & He)].
    + left. now apply (fold_booked_today today rs).
    + right. intros i Hi.
      apply (fold_slots_bit today rs d a i Hc E).
      apply (every_true_slots a); [now apply (fold_bookings_ok today rs d) | assumption..].
  - intros [-> | Hall].
    + now rewrite today_stays_booked.
    + pose proof (marked_fold_iff today rs d 0 Hc) as Hm.
      destruct (proj2 Hm (or_intror (Hall 0 ltac:(lia))))
        as [E | (a & E & _)]; [now rewrite E |].
      rewrite E. simpl. f_equal.
      pose proof (fold_bookings_ok today rs d a E) as Hok.
      rewrite (array_ok_nonempty a Hok). simpl.
      replace (every_true a) with true; [reflexivity |].
      symmetry. apply every_true_slots; [exact Hok |].
      intros i Hi. apply (fold_slots_bit today rs d a i Hc E). auto.
Qed.

End BuiltSchedule.

(** X1: on records with canonical dates, the slot list finds a slot
    taken exactly when a record names that day and slot, the day is not
    today, and the day is not full (then the entry is the fully booked
    mark, which the slot list does not read). *)
Theorem X1_slot_taken_iff (today : civil) (rs : list booking) (d : string) (s : nat) :
  Forall canonical rs ->
  scheduleDisabled (build today rs) d s = true
  <-> Booking d s ∈ rs
      /\ d <> format_key today
      /\ ~ (forall i, i < 8 -> Booking d i ∈ rs).
Proof.
  intros Hc. unfold scheduleDisabled. rewrite build_lookup. split.
  - destruct (fold_bookings today rs !! d) as [e|] eqn:E; [|discriminate].
    simpl. destruct (collapse e) as [|a] eqn:Ec; [discriminate |].
    apply collapse_Slots in Ec as [-> Hn]. intros Ha.
    pose proof (fold_bookings_ok today rs d a E) as Hok.
    destruct Hn as [Hn|Hn]; [now rewrite array_ok_nonempty in Hn |].
    split; [now apply (fold_slots_bit today rs d a s Hc E) |].
    split; [now apply (fold_slots_not_today today rs d a) |].
    intros Hall. assert (every_true a = true); [|congruence].
    apply every_true_slots; [exact Hok |].
    intros i Hi. apply (fold_slots_bit today rs d a i Hc E). auto.
  - intros (Hin & Hne & Hnot).
    destruct (proj2 (marked_fold_iff today rs d s Hc) (or_intror Hin))
      as [E | (a & E & Ha)].
    + apply (fold_booked_today today rs d Hc) in E. contradiction.
    + rewrite E. simpl.
      destruct (negb (Nat.eqb (length a) 0) && every_true a) eqn:Ec;
        [|exact Ha].
      exfalso. apply Hnot. intros i Hi.
      apply andb_true_iff in Ec as [_ Ee].
      apply (fold_slots_bit today rs d a i Hc E).
      apply (every_true_slots a); [now apply (fold_bookings_ok today rs d) | assumption..].
Qed.

Lemma X1_slot_taken_iff_witness :
  scheduleDisabled
    (build (Civil 2024 6 15)
       [Booking "2024-16-06" 2; Booking "2024-17-06" 0])
    "2024-16-06" 2 = true.
Proof.
  refine (proj2 (X1_slot_taken_iff (Civil 2024 6 15)
                   [Booking "2024-16-06" 2; Booking "2024-17-06" 0]
                   "2024-16-06" 2 _) _).
  - repeat constructor.
  - split; [left |]. split; [discriminate |].
    intros H. specialize (H 0 ltac:(lia)).
    rewrite !elem_of_cons in H. destruct H as [[=] | [[=] | H]]. inversion H.
Defined.

(** X2: on records with canonical dates, the day picker refuses a day
    exactly when the day is before the current day, or is the today of
    the fetch, or has a record for each of its eight slots. *)
Theorem X2_day_disabled_iff (today now day : civil) (rs : list booking) :
  Forall canonical rs ->
  checkDisableDate (build today rs) now day = true
  <-> (days_from_civil day < days_from_civil now)%Z
      \/ format_key day = format_key today
      \/ (forall i, i < 8 -> Booking (format_key day) i ∈ rs).
Proof.
  intros Hc. unfold checkDisableDate.
  rewrite orb_true_iff, bool_decide_eq_true, build_booked_iff by assumption.
  unfold diff_days_ms. rewrite Z.ltb_lt. split.
  - intros [H | H]; [right; exact H | left; lia].
  - intros [H | H]; [right; lia | left; exact H].
Qed.

Lemma X2_day_disabled_iff_witness :
  checkDisableDate
    (build (Civil 2024 6 15) [Booking "2024-16-06" 2])
    (Civil 2024 6 15) (Civil 2024 6 14) = true.
Proof.
  refine (proj2 (X2_day_disabled_iff (Civil 2024 6 15) (Civil 2024 6 15)
                   (Civil 2024 6 14) [Booking "2024-16-06" 2] _) _).
  - repeat constructor.
  - left. vm_compute. reflexivity.
Defined.

(** X3: on records with canonical dates, a day has no entry in the
    schedule exactly when it is not today and no record names it; such
    a day can be picked unless it is before the current day, and none
    of its slots is found taken. *)
Theorem X3_day_absent_iff (today : civil) (rs : list booking) (d : string) :
  Forall canonical rs ->
  (build today rs !! d = None
   <-> d <> format_key today /\ forall s, Booking d s ∉ rs)
  /\ (build today rs !! d = None ->
      (forall s, scheduleDisabled (build today rs) d s = false)
      /\ forall now day,
           format_key day = d ->
           checkDisableDate (build today rs) now day
           = (days_from_civil day <? days_from_civil now)%Z).
Proof.
  intros Hc. split.
  - rewrite build_lookup, fmap_None, eq_None_not_Some, fold_bookings_foldl.
    rewrite foldl_dom by assumption. unfold initSchedule.
    rewrite lookup_singleton_is_Some. split.
    + intros H. split; [intros ->; apply H; now left |].
      intros s Hs. apply H. right. eauto.
    + intros [Hne Hno] [<- | [s Hs]]; [now apply Hne | now apply (Hno s)].
  - intros E. split.
    + intros s. unfold scheduleDisabled. now rewrite E.
    + intros now day <-. unfold checkDisableDate. rewrite E.
      rewrite bool_decide_eq_false_2 by discriminate. simpl.
      unfold diff_days_ms.
      destruct (Z.ltb_spec (days_from_civil day) (days_from_civil now));
        [apply Z.ltb_lt | apply Z.ltb_ge]; lia.
Qed.

Lemma X3_day_absent_iff_witness :
  build (Civil 2024 6 15) [Booking "2024-16-06" 2] !! "2024-17-06" = None.
Proof.
  refine (proj2 (proj1 (X3_day_absent_iff (Civil 2024 6 15)
                          [Booking "2024-16-06" 2] "2024-17-06" _)) _).
  - repeat constructor.
  - split; [discriminate |]. intros s H.
    apply elem_of_cons in H as [[=] | H]. inversion H.
Defined.

(** X4: the built schedule does not depend on the order in which the
    records with canonical dates arrive. *)
Theorem X4_build_order (today : civil) (rs rs' : list booking) :
  Forall canonical rs -> rs ≡ₚ rs' -> build today rs = build today rs'.
Proof.
  intros Hc Hp. unfold build. rewrite !fold_bookings_foldl. f_equal.
  now apply foldl_add_booking_perm.
Qed.

Lemma X4_build_order_witness :
  build (Civil 2024 6 15) [Booking "2024-16-06" 9; Booking "2024-17-06" 0]
  = build (Civil 2024 6 15) [Booking "2024-17-06" 0; Booking "2024-16-06" 9].
Proof.
  refine (X4_build_order (Civil 2024 6 15) _ _ _ _).
  - repeat constructor.
  - apply Permutation_swap.
Defined.

(** X5: for days with a year of at most four digits, two days have the
    same key exactly when they are the same day, the key parses back to
    its day, and re-formatting the key leaves it as it is. *)
Theorem X5_key_of_day (c1 c2 : civil) :
  wire_day c1 = true -> wire_day c2 = true ->
  (format_key c1 = format_key c2 <-> c1 = c2)
  /\ parse_key (format_key c1) = Some c1
  /\ canon (format_key c1) = format_key c1.
Proof.
  intros H1 H2. split; [|split].
  - split; [now apply format_key_inj | now intros ->].
  - now apply parse_format_key.
  - now apply canon_format_key.
Qed.

Lemma X5_key_of_day_witness :
  parse_key (format_key (Civil 2024 6 16)) = Some (Civil 2024 6 16).
Proof.
  refine (proj1 (proj2 (X5_key_of_day (Civil 2024 6 16) (Civil 2024 6 15) _ _)));
    reflexivity.
Defined.

(** ** The form *)

Section Form.

Lemma run_snoc (events : list event) (e : event) :
  run (events ++ [e]) = step (run events) e.
Proof. unfold run. apply foldl_snoc. Qed.

Lemma step_stepIndex (s : state) (e : event) :
  step_click_ok e -> stepIndex s <= 3 -> stepIndex (step s e) <= 3.
Proof.
  destruct e; simpl; intros He Hs; try exact Hs.
  - lia.
  - unfold handleSetAppointmentDate, handleNextStep.
    case_decide; simpl; lia.
  - unfold handleSetAppointmentSlot, handleNextStep.
    case_decide; simpl; lia.
  - unfold validateEmail. destruct (email_regex_test v); exact Hs.
  - unfold validatePhone. destruct (phone_regex_test v); exact Hs.
Qed.

Lemma step_loading (s : state) (e : event) :
  loading (step s e) = loading s && negb (is_fetch e)
  /\ (is_Some (schedule (step s e))
      <-> is_Some (schedule s) \/ is_fetch e = true).
Proof.
  assert (Hsame : forall s' : state,
             loading s' = loading s -> schedule s' = schedule s ->
             loading s' = loading s && true
             /\ (is_Some (schedule s') <-> is_Some (schedule s) \/ false = true)).
  { intros s' -> ->. rewrite andb_true_r. split; [reflexivity |].
    split; [now left | intros [Hx|Hx]; [exact Hx | discriminate]]. }
  destruct e; simpl; try (apply Hsame; reflexivity).
  - rewrite andb_false_r. split; [reflexivity |]. split; eauto.
  - unfold handleSetAppointmentDate, handleNextStep.
    case_decide; apply Hsame; reflexivity.
  - unfold handleSetAppointmentSlot, handleNextStep.
    case_decide; apply Hsame; reflexivity.
  - unfold validateEmail. destruct (email_regex_test v);
      apply Hsame; reflexivity.
  - unfold validatePhone. destruct (phone_regex_test v);
      apply Hsame; reflexivity.
Qed.

Lemma run_loading (events : list event) :
  loading (run events) = negb (existsb is_fetch events)
  /\ (is_Some (schedule (run events)) <-> existsb is_fetch events = true).
Proof.
  induction events as [|e events [IHl IHs]] using rev_ind.
  - split; [reflexivity |]. split; [intros [? [=]] | discriminate].
  - rewrite run_snoc, existsb_app. simpl. rewrite orb_false_r.
    destruct (step_loading (run events) e) as [Hl Hs].
    rewrite Hl, Hs, IHl, IHs, orb_true_iff. split; [|reflexivity].
    now rewrite negb_orb.
Qed.

End Form.

(** X6: however the form is used, with the step buttons setting 0, 1
    or 2, the index of the active step never passes 3. *)
Theorem X6_step_index_bound (events : list event) :
  Forall step_click_ok events -> stepIndex (run events) <= 3.
Proof.
  induction events as [|e events IH] using rev_ind; intros H.
  - simpl. lia.
  - apply Forall_app in H as [H He]. apply Forall_cons in He as [He _].
    rewrite run_snoc. apply step_stepIndex; auto.
Qed.

Lemma X6_step_index_bound_witness :
  stepIndex
    (run [EvPickDate (Civil 2024 6 16); EvPickSlot 2; EvPickSlot 3;
          EvPickSlot 4; EvPickDate (Civil 2024 6 17)]) <= 3.
Proof.
  apply X6_step_index_bound. repeat constructor.
Defined.

(** X7: the slot list never reads a schedule that was not set: it
    renders nothing exactly as long as no fetch has succeeded (also
    after a fetch error), and otherwise the eight buttons of the slots
    0 to 7, in order. *)
Theorem X7_slot_list_rendered (events : list event) (now : moment) :
  renderAppointmentTimes now (run events) <> Thrown
  /\ (renderAppointmentTimes now (run events) = Null
      <-> existsb is_fetch events = false)
  /\ (forall rows,
        renderAppointmentTimes now (run events) = Shown rows ->
        map r_value rows = seq 0 8).
Proof.
  destruct (run_loading events) as [Hl Hs].
  unfold renderAppointmentTimes. rewrite Hl.
  destruct (existsb is_fetch events) eqn:E; simpl.
  - destruct (proj2 Hs eq_refl) as [sch ->].
    split; [discriminate |]. split; [split; discriminate |].
    intros rows [= <-]. reflexivity.
  - split; [discriminate |]. split; [split; reflexivity |]. discriminate.
Qed.

(** X8: whatever the schedule, the current time and the day picked,
    the buttons shown under the morning filter are those of the slots
    0, 1 and 2, and under the afternoon filter those of the slots 3 to
    7; a hidden button is disabled; and the labels run from 9:00 am to
    5:00 pm by the hour. *)
Theorem X8_slot_list_filter
    (sch : gmap string entry) (now : moment) (date : option civil) (m : nat) :
  let rows := map (slot_radio sch now date m) (seq 0 8) in
  map r_value (List.filter (fun r => negb (r_hidden r)) rows)
  = (if Nat.eqb m 0 then [0; 1; 2] else [3; 4; 5; 6; 7])
  /\ Forall (fun r => r_hidden r = true -> r_disabled r = true) rows
  /\ map r_label rows
     = [ "9:00 am - 10:00 am"; "10:00 am - 11:00 am"; "11:00 am - 12:00 pm";
         "12:00 pm - 1:00 pm"; "1:00 pm - 2:00 pm"; "2:00 pm - 3:00 pm";
         "3:00 pm - 4:00 pm"; "4:00 pm - 5:00 pm" ]%string.
Proof.
  intros rows. unfold rows. split; [|split].
  - destruct m; reflexivity.
  - repeat constructor; simpl; intros ->; apply orb_true_r.
  - reflexivity.
Qed.

Lemma X7_slot_list_rendered_witness :
  renderAppointmentTimes (Moment (Civil 2024 6 15) 14 30)
    (run [EvFetchError; EvPickDate (Civil 2024 6 16)]) = Null.
Proof.
  refine (proj2 (proj1 (proj2 (X7_slot_list_rendered
                                 [EvFetchError; EvPickDate (Civil 2024 6 16)]
                                 (Moment (Civil 2024 6 15) 14 30)))) _).
  reflexivity.
Defined.

Section FormFields.

Lemma step_date (s : state) (e : event) :
  appointmentDate (step s e)
  = match e with EvPickDate d => Some d | _ => appointmentDate s end
  /\ confirmationTextVisible (step s e)
     = match e with
       | EvPickDate _ => true
       | _ => confirmationTextVisible s
       end
  /\ appointmentSlot (step s e)
     = match e with EvPickSlot n => Some n | _ => appointmentSlot s end.
Proof.
  destruct e; simpl; try (repeat split; reflexivity).
  - unfold handleSetAppointmentDate, handleNextStep.
    case_decide; repeat split; reflexivity.
  - unfold handleSetAppointmentSlot, handleNextStep.
    case_decide; repeat split; reflexivity.
  - unfold validateEmail. destruct (email_regex_test v);
      repeat split; reflexivity.
  - unfold validatePhone. destruct (phone_regex_test v);
      repeat split; reflexivity.
Qed.

Lemma run_date (events : list event) :
  appointmentDate (run events) = last_picked_date events
  /\ confirmationTextVisible (run events)
     = bool_decide (is_Some (last_picked_date events))
  /\ appointmentSlot (run events) = last_picked_slot events.
Proof.
  unfold last_picked_date, last_picked_slot.
  induction events as [|e events (IHd & IHv & IHs)] using rev_ind.
  - repeat split; reflexivity.
  - rewrite run_snoc, !foldl_snoc.
    destruct (step_date (run events) e) as (Hd & Hv & Hs).
    rewrite Hd, Hv, Hs, IHd, IHv, IHs.
    destruct e; repeat split; reflexivity.
Qed.

Lemma step_processed (s : state) (e : event) :
  processed (step s e)
  = processed s || match e with EvSubmitResolved => true | _ => false end.
Proof.
  destruct e; simpl; rewrite ?orb_false_r; try reflexivity.
  - unfold handleSetAppointmentDate, handleNextStep. case_decide; reflexivity.
  - unfold handleSetAppointmentSlot, handleNextStep. case_decide; reflexivity.
  - unfold validateEmail. destruct (email_regex_test v); reflexivity.
  - unfold validatePhone. destruct (phone_regex_test v); reflexivity.
  - symmetry. apply orb_true_r.
Qed.

Lemma run_processed (events : list event) :
  processed (run events) = true <-> EvSubmitResolved ∈ events.
Proof.
  induction events as [|e events IH] using rev_ind.
  - split; [discriminate | intros H; inversion H].
  - rewrite run_snoc, step_processed, orb_true_iff, IH, elem_of_app,
      list_elem_of_singleton.
    split; (intros [H|H]; [now left | right]).
    + now destruct e.
    + now subst.
Qed.

Lemma step_valid (s : state) (e : event) :
  validEmail (step s e)
  = match e with EvEmail v => email_regex_test v | _ => validEmail s end
  /\ validPhone (step s e)
     = match e with EvPhone v => phone_regex_test v | _ => validPhone s end.
Proof.
  destruct e; simpl; try (split; reflexivity).
  - unfold handleSetAppointmentDate, handleNextStep.
    case_decide; split; reflexivity.
  - unfold handleSetAppointmentSlot, handleNextStep.
    case_decide; split; reflexivity.
  - unfold validateEmail. destruct (email_regex_test v); split; reflexivity.
  - unfold validatePhone. destruct (phone_regex_test v); split; reflexivity.
Qed.

(** The flag of a field tells whether its last input was accepted, and
    then the stored value is that input. *)
Lemma run_valid (events : list event) :
  validEmail (run events)
  = accepted_or_none email_regex_test (last_email_input events)
  /\ validPhone (run events)
     = accepted_or_none phone_regex_test (last_phone_input events)
  /\ (forall v, last_email_input events = Some v ->
        email_regex_test v = true -> email (run events) = Some v)
  /\ (forall v, last_phone_input events = Some v ->
        phone_regex_test v = true -> phone (run events) = Some v)
  /\ (last_email_input events = None -> email (run events) = None)
  /\ (last_phone_input events = None -> phone (run events) = None).
Proof.
  unfold last_email_input, last_phone_input.
  induction events as [|e events (IH1 & IH2 & IH3 & IH4 & IH5 & IH6)]
    using rev_ind.
  - repeat split; try reflexivity; discriminate.
  - rewrite run_snoc, !foldl_snoc.
    destruct (step_valid (run events) e) as [Hve Hvp].
    rewrite Hve, Hvp, step_email, step_phone.
    destruct e; try (repeat split; assumption).
    + repeat split; try assumption; try discriminate.
      intros v' [= ->] Hv. now rewrite Hv.
    + repeat split; try assumption; try discriminate.
      intros v' [= ->] Hv. now rewrite Hv.
Qed.

End FormFields.

(** X9: the sentence above the form is rendered exactly when a day was
    picked, and then it always has the clause of the day picked last;
    it has the clause of the time exactly when a slot was picked, for
    the slot picked last. *)
Theorem X9_confirmation_sentence (events : list event) (now : moment) :
  match renderConfirmationString now (run events) with
  | None => last_picked_date events = None
  | Some sen =>
      (exists d, last_picked_date events = Some d
                 /\ on_clause sen = Some (format_day d))
      /\ at_clause sen
         = (fun slot => format_time (slot_time now slot))
             <$> last_picked_slot events
  end.
Proof.
  destruct (run_date events) as (Hd & Hv & Hs).
  unfold renderConfirmationString. rewrite Hv, Hd, Hs.
  destruct (last_picked_date events) as [d|]; simpl.
  - split; [exists d; split |]; reflexivity.
  - reflexivity.
Qed.

(** X10: the submission was answered at least once exactly when the
    state is marked processed, and from then on the button that opens
    the confirmation dialog stays disabled, whatever is typed or
    picked. *)
Theorem X10_processed_for_good (events : list event) :
  (processed (run events) = true <-> EvSubmitResolved ∈ events)
  /\ (forall later,
        EvSubmitResolved ∈ events ->
        scheduleButtonDisabled (run (events ++ later)) = true).
Proof.
  split; [apply run_processed |].
  intros later Hin. unfold scheduleButtonDisabled.
  replace (processed (run (events ++ later))) with true;
    [apply orb_true_r |].
  symmetry. apply run_processed, elem_of_app. now left.
Qed.

Lemma X10_processed_for_good_witness :
  scheduleButtonDisabled
    (run ([EvEmail "jane@doe.com"; EvSubmitResolved]
          ++ [EvFirstName "Jane"; EvLastName "Doe"; EvPhone "5551234567"]))
  = true.
Proof.
  refine (proj2 (X10_processed_for_good _) _ _).
  right. left.
Defined.

(** X11: whenever the form counts as filled, the email and the phone
    of the request are the texts typed last in their fields, both pass
    their patterns, and the two names are not empty; the handler then
    runs without throwing and sends the SMS to the prefix +1 followed
    by the digits of the phone, which are ten, or eleven with a leading
    1. *)
Theorem X11_filled_form
    (events : list event) (now : civil) (cfg : config) (w : world) :
  contactFormFilled (run events) = true ->
  let request := handleSubmit now (run events) in
  exists e p first last,
    last_email_input events = Some e /\ email_regex_test e = true
    /\ last_phone_input events = Some p /\ phone_regex_test p = true
    /\ ap_email request = Some e /\ ap_phone request = Some p
    /\ ap_name request = first +:+ " " +:+ last
    /\ first <> ""%string /\ last <> ""%string
    /\ (String.length (strip_non_digits p) = 10
        \/ (String.length (strip_non_digits p) = 11
            /\ starts_with "1" (strip_non_digits p) = true))
    /\ exists body o,
         post_appointment cfg w request
         = Ran [ SendSms (Sms ("+1" +:+ strip_non_digits p)
                            (twilio_number cfg) body);
                 PostStore (store_url cfg) o;
                 ConsoleLog (twilio_create w
                               (Sms ("+1" +:+ strip_non_digits p)
                                  (twilio_number cfg) body));
                 ResJson (if cosmic_add w (store_url cfg) o
                          then "succes" else "error ") ].
Proof.
  intros Hf request.
  destruct (run_valid events) as (Hve & Hvp & He & Hp & Hne & Hnp).
  unfold contactFormFilled in Hf.
  apply andb_true_iff in Hf as [Hf Hve'].
  apply andb_true_iff in Hf as [Hf Hvp'].
  apply andb_true_iff in Hf as [Hf Het].
  apply andb_true_iff in Hf as [Hf Hpt].
  apply andb_true_iff in Hf as [Hft Hlt].
  rewrite Hve in Hve'. rewrite Hvp in Hvp'.
  destruct (last_email_input events) as [e|];
    [|rewrite Hne in Het by reflexivity; discriminate].
  destruct (last_phone_input events) as [p|];
    [|rewrite Hnp in Hpt by reflexivity; discriminate].
  simpl in Hve', Hvp'.
  specialize (He e eq_refl Hve'). specialize (Hp p eq_refl Hvp').
  destruct (firstName (run events)) as [first|] eqn:Efirst; [|discriminate].
  destruct (lastName (run events)) as [last|] eqn:Elast; [|discriminate].
  exists e, p, first, last.
  assert (Hreq : ap_phone request = Some p) by exact Hp.
  repeat split; try reflexivity; try assumption.
  - unfold request, handleSubmit. simpl. now rewrite Efirst, Elast.
  - intros ->. discriminate.
  - intros ->. discriminate.
  - now apply phone_regex_digits.
  - unfold post_appointment. rewrite Hreq. eauto.
Qed.

Lemma X11_filled_form_witness :
  exists e p first last,
    last_email_input (scenario "1 (555) 123-4567") = Some e
    /\ email_regex_test e = true
    /\ last_phone_input (scenario "1 (555) 123-4567") = Some p
    /\ phone_regex_test p = true
    /\ ap_email (handleSubmit scenario_today (run (scenario "1 (555) 123-4567")))
       = Some e
    /\ ap_phone (handleSubmit scenario_today (run (scenario "1 (555) 123-4567")))
       = Some p
    /\ ap_name (handleSubmit scenario_today (run (scenario "1 (555) 123-4567")))
       = first +:+ " " +:+ last
    /\ first <> ""%string /\ last <> ""%string
    /\ (String.length (strip_non_digits p) = 10
        \/ (String.length (strip_non_digits p) = 11
            /\ starts_with "1" (strip_non_digits p) = true))
    /\ exists body o,
         post_appointment (Config "+15005550006" "bucket" "key")
           (World (fun _ => None) (fun _ _ => true))
           (handleSubmit scenario_today (run (scenario "1 (555) 123-4567")))
         = Ran [ SendSms (Sms ("+1" +:+ strip_non_digits p) "+15005550006" body);
                 PostStore (store_url (Config "+15005550006" "bucket" "key")) o;
                 ConsoleLog None;
                 ResJson "succes" ].
Proof.
  refine (X11_filled_form (scenario "1 (555) 123-4567") scenario_today
            (Config "+15005550006" "bucket" "key")
            (World (fun _ => None) (fun _ _ => true)) _).
  vm_compute. reflexivity.
Defined.

(** ** The handler and the fetch *)

Section Handler.

Lemma appointment_moment_same_day (a : appointment) :
  default 0 (ap_slot a) <= 14 ->
  appointment_moment a
  = (fun c => Moment c (9 + Z.of_nat (default 0 (ap_slot a))) 0)
      <$> parse_key (ap_date a).
Proof.
  intros Hs. unfold appointment_moment.
  destruct (parse_key (ap_date a)) as [c|] eqn:E; [|reflexivity].
  simpl. f_equal. unfold startOf_day, set_hour. simpl.
  apply add_hours_same_day; [|lia].
  apply parse_key_wire_day, wire_day_bounds in E. tauto.
Qed.

Lemma stored_date (cfg : config) (a : appointment) (phone : string) :
  default 0 (ap_slot a) <= 14 ->
  metadata (make_cosmicObject cfg a phone) "date" = JStr (canon (ap_date a)).
Proof.
  intros Hs. unfold metadata, make_cosmicObject. simpl.
  rewrite appointment_moment_same_day by assumption.
  unfold canon. now destruct (parse_key (ap_date a)).
Qed.

End Handler.

(** X12: for a request with a phone and a slot of at most 14 (a start
    before midnight), the handler posts to the store the date of the
    request re-formatted, which is a canonical date; when the date
    parses, the SMS names that day and the hour 9 plus the slot; when
    it does not, nothing is refused: the text [Invalid date] is stored
    and sent. *)
Theorem X12_stored_date (cfg : config) (w : world) (a : appointment) (p : string) :
  ap_phone a = Some p ->
  default 0 (ap_slot a) <= 14 ->
  let o := make_cosmicObject cfg a (strip_non_digits p) in
  (exists m,
      post_appointment cfg w a
      = Ran [ SendSms m; PostStore (store_url cfg) o;
              ConsoleLog (twilio_create w m);
              ResJson (if cosmic_add w (store_url cfg) o
                       then "succes" else "error ") ]
      /\ sms_body m = smsBody a)
  /\ metadata o "date" = JStr (canon (ap_date a))
  /\ canon (canon (ap_date a)) = canon (ap_date a)
  /\ metadata o "slot" = jsval_of_nat (ap_slot a)
  /\ (forall c,
        parse_key (ap_date a) = Some c ->
        smsBody a
        = ap_name a +:+ ", this message is to confirm your appointment at "
            +:+ format_time (Moment c (9 + Z.of_nat (default 0 (ap_slot a))) 0)
            +:+ " on " +:+ format_long c +:+ ".")
  /\ (parse_key (ap_date a) = None ->
      canon (ap_date a) = "Invalid date"%string
      /\ smsBody a
         = ap_name a +:+ ", this message is to confirm your appointment at "
             +:+ "Invalid date" +:+ " on " +:+ "Invalid date" +:+ ".").
Proof.
  intros Hp Hs o. split; [|split; [|split; [|split; [|split]]]].
  - unfold post_appointment. rewrite Hp. eexists. split; reflexivity.
  - now apply stored_date.
  - apply canon_idem.
  - reflexivity.
  - intros c Hc. unfold smsBody.
    rewrite appointment_moment_same_day, Hc by assumption. reflexivity.
  - intros Hn. unfold canon, smsBody.
    rewrite appointment_moment_same_day, Hn by assumption. split; reflexivity.
Qed.

Lemma X12_stored_date_witness :
  metadata
    (make_cosmicObject (Config "+15005550006" "bucket" "key")
       (Appointment "2024-16-6" (Some 2) "Jane Doe" (Some "jane@doe.com")
          (Some "(555) 123-4567"))
       (strip_non_digits "(555) 123-4567")) "date"
  = JStr (canon "2024-16-6").
Proof.
  refine (proj1 (proj2 (X12_stored_date (Config "+15005550006" "bucket" "key")
                          (World (fun _ => None) (fun _ _ => true))
                          (Appointment "2024-16-6" (Some 2) "Jane Doe"
                             (Some "jane@doe.com") (Some "(555) 123-4567"))
                          "(555) 123-4567" _ _))).
  - reflexivity.
  - simpl. lia.
Defined.

(** X13: when the handler has written the booking of a day and a slot
    of the form, the list that the next fetch returns is the earlier
    one with the record of that day and slot at its end, and in the
    schedule built from it that slot of that day cannot be picked any
    more: the day picker refuses the day or the slot list disables the
    slot. *)
Theorem X13_booked_slot_is_taken
    (cfg : config) (w : world) (today day : civil) (s : nat)
    (name : string) (em : option string) (p : string)
    (all : list cosmicObject) (rs : list booking) :
  wire_day day = true -> s < 8 ->
  fetched_bookings all = Some rs ->
  Forall canonical rs ->
  let request := Appointment (format_key day) (Some s) name em (Some p) in
  let o := make_cosmicObject cfg request (strip_non_digits p) in
  let rs' := rs ++ [Booking (format_key day) s] in
  In (PostStore (store_url cfg) o)
     match post_appointment cfg w request with Ran t => t | Threw => [] end
  /\ fetched_bookings (all ++ [o]) = Some rs'
  /\ Forall canonical rs'
  /\ forall (now : moment) (m : nat),
       isDaySelectable (build today rs') (m_day now) day = false
       \/ isSlotSelectable (build today rs') now (Some day) m s = false.
Proof.
  intros Hw Hs Hall Hc request o rs'.
  assert (Hk : canon (format_key day) = format_key day)
    by now apply canon_format_key.
  assert (Hc' : Forall canonical rs').
  { apply Forall_app. split; [exact Hc |]. constructor; [exact Hk | constructor]. }
  split; [|split; [|split]].
  - simpl. right. left. reflexivity.
  - unfold fetched_bookings in *. apply mapM_Some. apply mapM_Some in Hall.
    unfold get_appointments. rewrite map_app. apply Forall2_app; [exact Hall |].
    constructor; [|constructor].
    unfold booking_of_fetched. cbn [f_date f_slot].
    unfold o. rewrite stored_date by (simpl; lia).
    cbn [ap_date request]. rewrite Hk. reflexivity.
  - exact Hc'.
  - intros now m.
    assert (Hm : marked (build today rs') (format_key day) s).
    { apply marked_collapse. rewrite fold_bookings_foldl.
      apply (marked_foldl_elem rs' _ (Booking (format_key day) s));
        [exact Hc' |].
      apply elem_of_app. right. left. }
    destruct Hm as [Hb | (a & Ha & Hbit)].
    + left. unfold isDaySelectable, checkDisableDate.
      rewrite Hb, bool_decide_eq_true_2 by reflexivity. reflexivity.
    + right. unfold isSlotSelectable, slot_radio. cbn [r_disabled default id].
      unfold scheduleDisabled. rewrite Ha, Hbit. reflexivity.
Qed.

Lemma X13_booked_slot_is_taken_witness :
  fetched_bookings
    ([] ++ [make_cosmicObject (Config "+15005550006" "bucket" "key")
              (Appointment (format_key (Civil 2024 6 16)) (Some 2) "Jane Doe"
                 (Some "jane@doe.com") (Some "(555) 123-4567"))
              (strip_non_digits "(555) 123-4567")])
  = Some ([] ++ [Booking (format_key (Civil 2024 6 16)) 2]).
Proof.
  refine (proj1 (proj2 (X13_booked_slot_is_taken
                          (Config "+15005550006" "bucket" "key")
                          (World (fun _ => None) (fun _ _ => true))
                          (Civil 2024 6 15) (Civil 2024 6 16) 2 "Jane Doe"
                          (Some "jane@doe.com") "(555) 123-4567" [] [] _ _ _ _))).
  - reflexivity.
  - lia.
  - reflexivity.
  - constructor.
Defined.

(** ** The phone after normalisation *)

Section PhoneDigits.

Import RegexFacts.

Lemma Matches_Rep_all (p : ascii -> bool) (s : string) :
  all_chars p s = true -> Matches (Rep (String.length s) (Class p)) s.
Proof.
  induction s as [|c s IH]; simpl; intros H; [constructor |].
  apply andb_true_iff in H as [Hc Hs].
  change (String c s) with (String c "" +:+ s).
  constructor; [now constructor | auto].
Qed.

Lemma ten_digits_accepted (s : string) :
  all_chars is_digit s = true -> String.length s = 10 ->
  Matches (Cat phone_area
             (Cat phone_sep
                (Cat (Rep 3 (Class is_digit))
                   (Cat phone_sep (Rep 4 (Class is_digit)))))) s.
Proof.
  intros Ha Hl.
  do 10 (destruct s as [|? s]; [discriminate Hl |]).
  destruct s; [|discriminate Hl].
  cbn [all_chars] in Ha.
  apply andb_true_iff in Ha as [D1 Ha]. apply andb_true_iff in Ha as [D2 Ha].
  apply andb_true_iff in Ha as [D3 Ha]. apply andb_true_iff in Ha as [D4 Ha].
  apply andb_true_iff in Ha as [D5 Ha]. apply andb_true_iff in Ha as [D6 Ha].
  apply andb_true_iff in Ha as [D7 Ha]. apply andb_true_iff in Ha as [D8 Ha].
  apply andb_true_iff in Ha as [D9 Ha]. apply andb_true_iff in Ha as [D10 _].
  match goal with
  | |- Matches _ (String ?a (String ?b (String ?c (String ?d (String ?e
         (String ?f ?rest)))))) =>
      change (Matches
                (Cat phone_area
                   (Cat phone_sep
                      (Cat (Rep 3 (Class is_digit))
                         (Cat phone_sep (Rep 4 (Class is_digit))))))
                (String a (String b (String c ""))
                 +:+ ("" +:+ (String d (String e (String f ""))
                              +:+ ("" +:+ rest)))))
  end.
  constructor.
  - apply MAltR.
    apply (Matches_Rep_all is_digit (String _ (String _ (String _ "")))).
    cbn [all_chars]. now rewrite D1, D2, D3.
  - constructor; [apply MAltR; constructor |].
    constructor.
    + apply (Matches_Rep_all is_digit (String _ (String _ (String _ "")))).
      cbn [all_chars]. now rewrite D4, D5, D6.
    + constructor; [apply MAltR; constructor |].
      apply (Matches_Rep_all is_digit
               (String _ (String _ (String _ (String _ ""))))).
      cbn [all_chars]. now rewrite D7, D8, D9, D10.
Qed.

Lemma digits_accepted (d : string) :
  all_chars is_digit d = true ->
  String.length d = 10
  \/ (String.length d = 11 /\ starts_with "1" d = true) ->
  phone_regex_test d = true.
Proof.
  intros Ha Hl. apply test_iff. unfold phone_regex.
  destruct Hl as [Hl | [Hl H1]].
  - change d with ("" +:+ d). constructor; [apply MAltR; constructor |].
    now apply ten_digits_accepted.
  - destruct d as [|c d]; [discriminate |].
    cbn [starts_with] in H1. apply andb_true_iff in H1 as [H1 _].
    apply Ascii.eqb_eq in H1. subst c.
    change (String "1" d) with (String "1" "" +:+ d).
    cbn [all_chars] in Ha. apply andb_true_iff in Ha as [_ Ha].
    constructor.
    + apply MAltL, MAltR, MAltL. constructor. reflexivity.
    + apply ten_digits_accepted; [exact Ha | simpl in Hl; lia].
Qed.

End PhoneDigits.

(** X14: the phone pattern accepts every string of ten digits and
    every string of eleven digits that starts with 1; so the number
    that the handler stores for an accepted phone is accepted again,
    and stripping it once more changes nothing. *)
Theorem X14_stripped_phone_accepted (s : string) :
  (all_chars is_digit s = true ->
   String.length s = 10 \/ (String.length s = 11 /\ starts_with "1" s = true) ->
   phone_regex_test s = true)
  /\ (phone_regex_test s = true ->
      phone_regex_test (strip_non_digits s) = true
      /\ strip_non_digits (strip_non_digits s) = strip_non_digits s).
Proof.
  split; [apply digits_accepted |].
  intros H. split.
  - apply digits_accepted; [apply strip_non_digits_all_digits |].
    now apply phone_regex_digits.
  - apply strip_non_digits_digits, strip_non_digits_all_digits.
Qed.

Lemma X14_stripped_phone_accepted_witness :
  phone_regex_test (strip_non_digits "1 (555) 123-4567") = true.
Proof.
  refine (proj1 (proj2 (X14_stripped_phone_accepted "1 (555) 123-4567") _)).
  vm_compute. reflexivity.
Defined.

(** ** The dialog, the request and the SMS *)

Lemma format_time_slot (now : moment) (c : civil) (s : nat) :
  s <= 14 ->
  format_time (slot_time now s) = format_time (Moment c (9 + Z.of_nat s) 0).
Proof.
  intros Hs. unfold slot_time, add_hours, set_minute, set_hour, format_time.
  cbn [m_hour m_minute m_day].
  rewrite (Z.mod_small (9 + Z.of_nat s) 24) by lia. reflexivity.
Qed.

(** X15: for a state with a picked day (with a year of at most four
    digits), a picked slot of at most 14, both names and a phone, the
    dialog shows the name, the phone and the email that the request
    carries; the date of the request parses back to the picked day; and
    the SMS that the handler sends reads the name of the dialog, the
    time of the dialog and the picked day. *)
Theorem X15_dialog_request_sms
    (st : state) (now : moment) (today : civil) (cfg : config) (w : world)
    (d : civil) (s : nat) (first last p : string) :
  appointmentDate st = Some d -> wire_day d = true ->
  appointmentSlot st = Some s -> s <= 14 ->
  firstName st = Some first -> lastName st = Some last ->
  phone st = Some p ->
  let dialog := renderAppointmentConfirmation now st in
  let request := handleSubmit today st in
  c_name dialog = ap_name request
  /\ ap_phone request = Some (c_number dialog)
  /\ ap_email request = email st
  /\ c_email dialog = js_text (email st)
  /\ parse_key (ap_date request) = Some d
  /\ c_date dialog = format_dialog d
  /\ exists o,
       post_appointment cfg w request
       = Ran [ SendSms (Sms ("+1" +:+ strip_non_digits p) (twilio_number cfg)
                          (c_name dialog
                           +:+ ", this message is to confirm your appointment at "
                           +:+ c_time dialog +:+ " on " +:+ format_long d
                           +:+ "."));
               PostStore (store_url cfg) o;
               ConsoleLog
                 (twilio_create w
                    (Sms ("+1" +:+ strip_non_digits p) (twilio_number cfg)
                       (c_name dialog
                        +:+ ", this message is to confirm your appointment at "
                        +:+ c_time dialog +:+ " on " +:+ format_long d
                        +:+ ".")));
               ResJson (if cosmic_add w (store_url cfg) o
                        then "succes" else "error ") ]
       /\ metadata o "date" = JStr (format_key d)
       /\ metadata o "slot" = JNum s.
Proof.
  intros Hd Hw Hs Hs14 Hf Hl Hp dialog request.
  assert (Hparse : parse_key (ap_date request) = Some d).
  { unfold request, handleSubmit. cbn [ap_date]. rewrite Hd.
    now apply parse_format_key. }
  assert (Hslot : default 0 (ap_slot request) = s).
  { unfold request, handleSubmit. cbn [ap_slot]. now rewrite Hs. }
  unfold dialog, renderAppointmentConfirmation.
  cbn [c_name c_number c_email c_date c_time].
  rewrite Hf, Hl, Hp, Hd, Hs. cbn [js_text default].
  split; [unfold request, handleSubmit; cbn [ap_name];
          now rewrite Hf, Hl |].
  split; [exact Hp |]. split; [reflexivity |]. split; [reflexivity |].
  split; [exact Hparse |]. split; [reflexivity |].
  exists (make_cosmicObject cfg request (strip_non_digits p)).
  split; [|split].
  - unfold post_appointment.
    replace (ap_phone request) with (Some p) by (symmetry; exact Hp).
    assert (Hbody : smsBody request
                    = (first +:+ " " +:+ last)
                      +:+ ", this message is to confirm your appointment at "
                      +:+ format_time (slot_time now s) +:+ " on "
                      +:+ format_long d +:+ ".").
    { unfold smsBody.
      rewrite appointment_moment_same_day by (rewrite Hslot; exact Hs14).
      rewrite Hparse, Hslot. cbn [fmap option_fmap option_map
                                    format_time_opt format_long_opt m_day].
      rewrite (format_time_slot now d s Hs14).
      unfold request, handleSubmit. cbn [ap_name]. now rewrite Hf, Hl. }
    rewrite Hbody. reflexivity.
  - rewrite stored_date by (rewrite Hslot; exact Hs14).
    unfold canon. now rewrite Hparse.
  - unfold metadata, make_cosmicObject, request, handleSubmit. simpl.
    now rewrite Hs.
Qed.

Lemma X15_dialog_request_sms_witness :
  parse_key
    (ap_date (handleSubmit scenario_today (run (scenario "(555) 123-4567"))))
  = Some scenario_day.
Proof.
  refine (proj1 (proj2 (proj2 (proj2 (proj2
            (X15_dialog_request_sms (run (scenario "(555) 123-4567"))
               (Moment scenario_today 14 30) scenario_today
               (Config "+15005550006" "bucket" "key")
               (World (fun _ => None) (fun _ _ => true))
               scenario_day 2 "Jane" "Doe" "(555) 123-4567"
               _ _ _ _ _ _ _)))))).
  all: try (vm_compute; reflexivity).
  lia.
Defined.

(** X16: as long as no fetch has succeeded the snackbar is open and
    reads [Loading... ], also after a fetch error, whose message is
    stored but not shown. *)
Theorem X16_snackbar_while_loading (events : list event) :
  existsb is_fetch events = false ->
  renderSnackbar (run events) = (true, "Loading... "%string)
  /\ (last events = Some EvFetchError ->
      confirmationSnackbarMessage (run events) = Some "Error fetching data"%string).
Proof.
  intros H. destruct (run_loading events) as [Hl _].
  rewrite H in Hl. simpl in Hl. split.
  - unfold renderSnackbar. rewrite Hl, orb_true_r. reflexivity.
  - intros Hlast.
    destruct events as [|e events] using rev_ind; [discriminate |].
    rewrite last_snoc in Hlast. injection Hlast as ->.
    rewrite run_snoc. reflexivity.
Qed.

Lemma X16_snackbar_while_loading_witness :
  renderSnackbar (run [EvPickDate (Civil 2024 6 16); EvFetchError])
  = (true, "Loading... "%string).
Proof.
  refine (proj1 (X16_snackbar_while_loading
                   [EvPickDate (Civil 2024 6 16); EvFetchError] _)).
  reflexivity.
Defined.
